(** * The Python binding of the Tetris learning environment

    A shallow embedding of [python-api/environment.py]: the [Environment]
    class, the functions of the shared library it reaches through cffi, and
    the glue between the two (UTF-8 encoding of the ROM path, cffi buffers,
    numpy views).  The emulator itself is compiled Rust code that the Python
    file only declares (the [ffi.cdef] block), so it enters as an interface,
    [Backend]; a backend written after the specification, [SpecBackend], and
    a small executable emulator, [Stub], instantiate it. *)

From Stdlib Require Import ZArith Lia String.
From stdpp Require Import base gmap list.

Local Open Scope Z_scope.

(** ** Fixed-width integers and their layout in memory *)

(** [uint32_t]: the value modulo 2^32. *)
Definition to_uint32 (z : Z) : Z := z mod 2 ^ 32.

(** [int32_t]: two's complement reading of the low 32 bits. *)
Definition to_int32 (z : Z) : Z := (z + 2 ^ 31) mod 2 ^ 32 - 2 ^ 31.

Definition in_int32 (z : Z) : Prop := - 2 ^ 31 <= z < 2 ^ 31.

(** The four bytes of a 32-bit word, least significant first (the library is
    only built for x86 hosts, see the TODO next to [libpath]). *)
Definition le_bytes32 (u : Z) : list Z :=
  [ Z.land u 255;
    Z.land (Z.shiftr u 8) 255;
    Z.land (Z.shiftr u 16) 255;
    Z.land (Z.shiftr u 24) 255 ].

(** The unsigned word held by four bytes, least significant first. *)
Definition le_word32 (b0 b1 b2 b3 : Z) : Z :=
  b0 + Z.shiftl b1 8 + Z.shiftl b2 16 + Z.shiftl b3 24.

(** numpy element types that matter here. [get_pixels] asks for ["int32"];
    the C declaration of the buffer is [uint32_t]. *)
Inductive dtype := int32 | uint32.

Definition itemsize (d : dtype) : Z := 4.

Definition decode_item (d : dtype) (b0 b1 b2 b3 : Z) : Z :=
  match d with
  | int32 => to_int32 (le_word32 b0 b1 b2 b3)
  | uint32 => le_word32 b0 b1 b2 b3
  end.

(** Reading consecutive items out of raw bytes; trailing bytes that do not
    fill an item are ignored. *)
Fixpoint decode_items (d : dtype) (bs : list Z) : list Z :=
  match bs with
  | b0 :: b1 :: b2 :: b3 :: rest => decode_item d b0 b1 b2 b3 :: decode_items d rest
  | _ => []
  end.

(** ** [str.encode(encoding="UTF-8")]

    A Python [str] is a sequence of code points; the strict UTF-8 codec
    refuses surrogates (and nothing above U+10FFFF exists). *)
Definition utf8_code_point (c : Z) : option (list Z) :=
  if (c <? 0) then None
  else if (c <? 128) then Some [c]
  else if (c <? 2048) then
    Some [Z.lor 192 (Z.shiftr c 6); Z.lor 128 (Z.land c 63)]
  else if ((55296 <=? c) && (c <=? 57343))%bool then None
  else if (c <? 65536) then
    Some [Z.lor 224 (Z.shiftr c 12);
          Z.lor 128 (Z.land (Z.shiftr c 6) 63);
          Z.lor 128 (Z.land c 63)]
  else if (c <=? 1114111) then
    Some [Z.lor 240 (Z.shiftr c 18);
          Z.lor 128 (Z.land (Z.shiftr c 12) 63);
          Z.lor 128 (Z.land (Z.shiftr c 6) 63);
          Z.lor 128 (Z.land c 63)]
  else None.

Fixpoint str_encode (s : list Z) : option (list Z) :=
  match s with
  | [] => Some []
  | c :: rest =>
      match utf8_code_point c, str_encode rest with
      | Some bs, Some bss => Some (bs ++ bss)
      | _, _ => None
      end
  end.

(** ** The declarations of [ffi.cdef] *)

(** [typedef enum { Up = 0, ..., Start = 7 } Key;] *)
Inductive Key : Set := Up | Down | Left | Right | B | A | Select | Start.

(** The integer each enumerator stands for; [lib.Up] is the Python int 0. *)
Definition key_value (k : Key) : Z :=
  match k with
  | Up => 0 | Down => 1 | Left => 2 | Right => 3
  | B => 4 | A => 5 | Select => 6 | Start => 7
  end.

(** The conversion done on the C side of the call. *)
Definition key_of_value (z : Z) : option Key :=
  match z with
  | 0 => Some Up | 1 => Some Down | 2 => Some Left | 3 => Some Right
  | 4 => Some B | 5 => Some A | 6 => Some Select | 7 => Some Start
  | _ => None
  end.

Definition all_keys : list Key := [Up; Down; Left; Right; B; A; Select; Start].

#[export] Instance Key_eq_dec : EqDecision Key.
Proof. solve_decision. Defined.

(** The functions the shared library exports, as functions on the state of
    one [Environment] instance of the library (the [inst] behind an
    [Environment *]).  Integer results are the mathematical values; the
    C types are applied where the call crosses into Python.

    - [be_initialize]: [initialize_environment], on the bytes of the path;
      [None] is the null pointer.
    - [be_start_episode]: the new state and the [int32_t] status.
    - [be_get_pixels]: the words of the buffer the returned pointer leads to. *)
Class Backend (inst : Type) := {
  be_initialize : list Z -> option inst;
  be_start_episode : inst -> inst * Z;
  be_run_frame : inst -> inst;
  be_is_running : inst -> bool;
  be_set_key_state : inst -> Key -> bool -> inst;
  be_get_score : inst -> Z;
  be_get_pixels : inst -> list Z;
}.

(** ** Python values, exceptions and the state of the process *)

(** What the attribute [self.__obj] may hold: a cdata pointer of type
    [Environment *] (by address, 0 being [ffi.NULL]) or [None]. *)
Inductive pyval := CData (p : N) | PyNone.

(** The [const uint32_t *] cdata returned by [lib.get_pixels]: it points
    into the instance at address [owner]. *)
Record pixel_ptr := PixelsOf { owner : N }.

(** A cffi buffer object: [size] raw bytes starting at a pointer.  cffi
    buffers support item assignment, whatever the [const] of the pointer
    they were made from, so [buf_readonly] is false for all of them. *)
Record buffer_obj := mkBuffer {
  buf_ptr : pixel_ptr;
  buf_size : Z;
  buf_readonly : bool;
}.

(** A one-dimensional numpy array that borrows the memory of a buffer. *)
Record ndarray := mkArray {
  arr_base : buffer_obj;
  arr_dtype : dtype;
  arr_count : Z;
  arr_writeable : bool;
}.

(** What a method of [Environment] hands back to its caller. *)
Inductive value :=
| VNone
| VBool (b : bool)
| VInt (z : Z)
| VArray (a : ndarray).

Inductive exn :=
| Exception_ (msg : string)
| UnicodeEncodeError
| AttributeError
| TypeError
| OverflowError
| ValueError.

(** The calls that reach the shared library, in the order they are made. *)
Inductive call :=
| CInitialize (rom_path : list Z)
| CDestroy (p : N)
| CStartEpisode (p : N)
| CRunFrame (p : N)
| CIsRunning (p : N)
| CSetKeyState (p : N) (key : Z) (pressed : bool)
| CGetScore (p : N)
| CGetPixels (p : N).

(** One [Environment] object and the library it talks to.
    [_Environment__obj] is the (name-mangled) attribute [self.__obj], absent
    until [__init__] binds it; [heap] holds the instances the library has
    allocated and not yet destroyed; [trace] is the log of library calls. *)
Record state {inst : Type} := mkState {
  _Environment__obj : option pyval;
  heap : gmap N inst;
  trace : list call;
}.
Arguments state : clear implicits.
Arguments mkState {inst} _ _ _.

(** A call returns, raises, or has no defined behaviour (the library was
    handed a pointer that is null or dangling, or an enumerator that does
    not exist). *)
Inductive result (inst T : Type) :=
| Ok (v : T) (s : state inst)
| Raise (e : exn) (s : state inst)
| Undefined.
Arguments Ok {inst T} v s.
Arguments Raise {inst T} e s.
Arguments Undefined {inst T}.

Definition M (inst T : Type) : Type := state inst -> result inst T.

Definition ret {inst T} (v : T) : M inst T := fun s => Ok v s.

Definition bind {inst T U} (m : M inst T) (k : T -> M inst U) : M inst U :=
  fun s =>
    match m s with
    | Ok v s' => k v s'
    | Raise e s' => Raise e s'
    | Undefined => Undefined
    end.

Definition raise {inst T} (e : exn) : M inst T := fun s => Raise e s.

Definition undefined {inst T} : M inst T := fun _ => Undefined.

Notation "'do' x <- m ; k" := (bind m (fun x => k))
  (at level 10, x name, m at level 100, k at level 200).
Notation "m >> k" := (bind m (fun _ => k))
  (at level 61, left associativity).

Definition pyval_eqb (a b : pyval) : bool :=
  match a, b with
  | CData p, CData q => N.eqb p q
  | PyNone, PyNone => true
  | _, _ => false
  end.

Section Process.
Context {inst : Type}.

Definition log (c : call) (s : state inst) : state inst :=
  mkState (_Environment__obj s) (heap s) (trace s ++ [c]).

Definition store (p : N) (e : inst) (s : state inst) : state inst :=
  mkState (_Environment__obj s) (<[p := e]> (heap s)) (trace s).

Definition release (p : N) (s : state inst) : state inst :=
  mkState (_Environment__obj s) (delete p (heap s)) (trace s).

(** [self.__obj] as an expression: [AttributeError] while unbound. *)
Definition get_obj : M inst pyval :=
  fun s =>
    match _Environment__obj s with
    | Some v => Ok v s
    | None => Raise AttributeError s
    end.

(** [self.__obj = v] *)
Definition set_obj (v : pyval) : M inst unit :=
  fun s => Ok tt (mkState (Some v) (heap s) (trace s)).

(** A newly allocated object, before [__init__] has run on it. *)
Definition new_object (s : state inst) : state inst :=
  mkState None (heap s) (trace s).

(** The session holds the handle [p] and the library still has the
    instance [e] behind it. *)
Definition live (s : state inst) (p : N) (e : inst) : Prop :=
  _Environment__obj s = Some (CData p) /\ heap s !! p = Some e.

(** Passing [h] where the C function expects an [Environment *]: cffi
    refuses [None]; the library then dereferences the pointer. *)
Definition deref {T} (c : N -> call) (h : pyval)
    (k : N -> inst -> M inst T) : M inst T :=
  fun s =>
    match h with
    | PyNone => Raise TypeError s
    | CData p =>
        match heap s !! p with
        | Some e => k p e (log (c p) s)
        | None => Undefined
        end
    end.
End Process.

(** ** [ffi] and [numpy] *)

Module ffi.
Definition NULL : pyval := CData 0%N.

(** [ffi.buffer(cdata, size)] *)
Definition buffer (cdata : pixel_ptr) (size : Z) : buffer_obj :=
  mkBuffer cdata size false.
End ffi.

Module numpy.
(** [numpy.frombuffer(buffer, dtype=..., count=...)]: no copy is made;
    the array is writeable exactly when the buffer is. *)
Definition frombuffer {inst} (b : buffer_obj) (d : dtype) (count : Z)
    : M inst ndarray :=
  if (0 <=? count) && (count * itemsize d <=? buf_size b)
  then ret (mkArray b d count (negb (buf_readonly b)))
  else raise ValueError.
End numpy.

(** ** [lib]: the shared library seen through cffi *)

Module lib.
Section lib.
Context {inst : Type} `{!Backend inst}.

(** [Environment *initialize_environment(const char *rom_path_ptr)].
    A fresh non-null address is handed out for a new instance; on failure
    the library keeps nothing and answers null. *)
Definition initialize_environment (rom_path : list Z) : M inst pyval :=
  fun s =>
    let s1 := log (CInitialize rom_path) s in
    match be_initialize rom_path with
    | Some e =>
        let p := fresh ({[0%N]} ∪ dom (heap s1)) in
        Ok (CData p) (store p e s1)
    | None => Ok ffi.NULL s1
    end.

(** [void destroy_environment(Environment *env_ptr)] *)
Definition destroy_environment (h : pyval) : M inst value :=
  deref CDestroy h (fun p _ s => Ok VNone (release p s)).

(** [int32_t start_episode(Environment *env_ptr)] *)
Definition start_episode (h : pyval) : M inst value :=
  deref CStartEpisode h (fun p e s =>
    let '(e', status) := be_start_episode e in
    Ok (VInt (to_int32 status)) (store p e' s)).

(** [void run_frame(Environment *env_ptr)] *)
Definition run_frame (h : pyval) : M inst value :=
  deref CRunFrame h (fun p e s => Ok VNone (store p (be_run_frame e) s)).

(** [bool is_running(const Environment *env_ptr)] *)
Definition is_running (h : pyval) : M inst value :=
  deref CIsRunning h (fun p e s => Ok (VBool (be_is_running e)) s).

(** [void set_key_state(Environment *env_ptr, Key key, bool pressed)].
    The enumeration has only non-negative values, so cffi passes it as an
    [unsigned int] and refuses integers outside that type; what the
    library receives must be one of the eight enumerators. *)
Definition set_key_state (h : pyval) (key : Z) (pressed : bool) : M inst value :=
  match h with
  | PyNone => raise TypeError
  | CData _ =>
      if (key <? 0) || (2 ^ 32 <=? key) then raise OverflowError
      else
        match key_of_value key with
        | None => undefined
        | Some k =>
            deref (fun p => CSetKeyState p key pressed) h (fun p e s =>
              Ok VNone (store p (be_set_key_state e k pressed) s))
        end
  end.

(** [int32_t get_score(const Environment *env_ptr)] *)
Definition get_score (h : pyval) : M inst value :=
  deref CGetScore h (fun p e s => Ok (VInt (to_int32 (be_get_score e))) s).

(** [const uint32_t *get_pixels(Environment *env_ptr)] *)
Definition get_pixels (h : pyval) : M inst pixel_ptr :=
  deref CGetPixels h (fun p _ s => Ok (PixelsOf p) s).
End lib.
End lib.

(** ** [class Environment] *)

Module Environment.
Definition WIDTH : Z := 160.
Definition HEIGHT : Z := 144.

Section Environment.
Context {inst : Type} `{!Backend inst}.

Definition __init__ (rom_path : list Z) : M inst value :=
  match str_encode rom_path with
  | None => raise UnicodeEncodeError
  | Some rom_path_utf8 =>
      do obj <- lib.initialize_environment rom_path_utf8;
      set_obj obj >>
      do obj <- get_obj;
      if pyval_eqb obj ffi.NULL
      then raise (Exception_
             "failed to initialize environment (maybe the rom path was incorrect?)")
      else ret VNone
  end.

Definition __del__ : M inst value :=
  do obj <- get_obj;
  (if negb (pyval_eqb obj ffi.NULL)
   then lib.destroy_environment obj
   else ret VNone) >>
  set_obj PyNone >>
  ret VNone.

Definition start_episode : M inst value :=
  do obj <- get_obj;
  lib.start_episode obj >>
  ret VNone.

Definition run_frame : M inst value :=
  do obj <- get_obj;
  lib.run_frame obj >>
  ret VNone.

Definition is_running : M inst value :=
  do obj <- get_obj;
  lib.is_running obj.

Definition set_key_state (key : Z) (pressed : bool) : M inst value :=
  do obj <- get_obj;
  lib.set_key_state obj key pressed >>
  ret VNone.

Definition get_score : M inst value :=
  do obj <- get_obj;
  lib.get_score obj.

Definition get_pixels : M inst value :=
  do obj <- get_obj;
  do ptr <- lib.get_pixels obj;
  let buffer := ffi.buffer ptr (WIDTH * HEIGHT * 4) in
  do arr <- numpy.frombuffer buffer int32 (WIDTH * HEIGHT);
  ret (VArray arr).
End Environment.
End Environment.

(** ** Callers of the class *)

Section Callers.
Context {inst : Type} {be : Backend inst}.

(** The expression [Environment(rom_path)]: [__init__] runs on a new
    object. *)
Definition construct (rom_path : list Z) : M inst value :=
  fun s => Environment.__init__ rom_path (new_object s).

(** The object is reclaimed: the interpreter runs [__del__] and ignores
    an exception that escapes it. *)
Definition reclaim (s : state inst) : option (state inst) :=
  match Environment.__del__ s with
  | Ok _ s' | Raise _ s' => Some s'
  | Undefined => None
  end.

(** [try: Environment(rom_path)] / [except Exception: pass], the object
    being dropped right away. *)
Definition attempt (rom_path : list Z) (s : state inst) : option (state inst) :=
  match construct rom_path s with
  | Ok _ s' | Raise _ s' => reclaim s'
  | Undefined => None
  end.

Fixpoint attempts (n : nat) (rom_path : list Z) (s : state inst)
    : option (state inst) :=
  match n with
  | O => Some s
  | S n' =>
      match attempt rom_path s with
      | Some s' => attempts n' rom_path s'
      | None => None
      end
  end.

(** The bytes behind the pointer [get_pixels] returns: the [uint32_t]
    words of the buffer, one after the other. *)
Definition pixel_memory (e : inst) : list Z :=
  mjoin (le_bytes32 <$> be_get_pixels e).

(** The bytes a cffi buffer exposes, in the state [s]; reading past the
    memory of the instance, or through a released one, is not defined. *)
Definition buffer_read (b : buffer_obj) (s : state inst) : option (list Z) :=
  match heap s !! owner (buf_ptr b) with
  | Some e =>
      if (0 <=? buf_size b) && (buf_size b <=? Z.of_nat (length (pixel_memory e)))
      then Some (take (Z.to_nat (buf_size b)) (pixel_memory e))
      else None
  | None => None
  end.

(** [arr.tolist()] in the state [s]: the items of the array as Python
    ints.  The array owns no data, so the answer depends on [s]. *)
Definition tolist (a : ndarray) (s : state inst) : option (list Z) :=
  match buffer_read (arr_base a) s with
  | Some bs =>
      Some (decode_items (arr_dtype a)
              (take (Z.to_nat (arr_count a * itemsize (arr_dtype a))) bs))
  | None => None
  end.

(** The operations a caller has on a constructed session, with buttons
    taken from the enumeration. *)
Inductive op :=
| StartEpisode
| RunFrame
| IsRunning
| SetKeyState (k : Key) (pressed : bool)
| GetScore
| GetPixels.

Definition perform (o : op) : M inst value :=
  match o with
  | StartEpisode => Environment.start_episode
  | RunFrame => Environment.run_frame
  | IsRunning => Environment.is_running
  | SetKeyState k pressed => Environment.set_key_state (key_value k) pressed
  | GetScore => Environment.get_score
  | GetPixels => Environment.get_pixels
  end.

(** What the caller sees of one operation: the value returned (for an
    array, with the items it shows at that moment), the exception, or a
    crash. *)
Inductive observation :=
| Returned (v : value) (items : option (list Z))
| Raised (e : exn)
| Crashed.

Definition observe (r : result inst value) : observation :=
  match r with
  | Ok (VArray a) s => Returned (VArray a) (tolist a s)
  | Ok v _ => Returned v None
  | Raise e _ => Raised e
  | Undefined => Crashed
  end.

(** Running a program of operations and collecting what is seen. *)
Fixpoint session (ops : list op) (s : state inst) : list observation :=
  match ops with
  | [] => []
  | o :: rest =>
      observe (perform o s) ::
      match perform o s with
      | Ok _ s' | Raise _ s' => session rest s'
      | Undefined => []
      end
  end.

(** The state a program of operations ends in. *)
Fixpoint after (ops : list op) (s : state inst) : option (state inst) :=
  match ops with
  | [] => Some s
  | o :: rest =>
      match perform o s with
      | Ok _ s' | Raise _ s' => after rest s'
      | Undefined => None
      end
  end.
End Callers.

(** A backend that differs from [be] only in the status its
    [start_episode] reports. *)
Definition with_status {inst} (be : Backend inst) (status : inst -> Z)
    : Backend inst :=
  {| be_initialize := @be_initialize _ be;
     be_start_episode := fun e => (fst (@be_start_episode _ be e), status e);
     be_run_frame := @be_run_frame _ be;
     be_is_running := @be_is_running _ be;
     be_set_key_state := @be_set_key_state _ be;
     be_get_score := @be_get_score _ be;
     be_get_pixels := @be_get_pixels _ be |}.

(** A frame laid out row by row, left to right, without padding. *)
Definition row_major (f : Z -> Z -> Z) : list Z :=
  mjoin ((fun y => (fun x => f x y) <$> seqZ 0 Environment.WIDTH)
           <$> seqZ 0 Environment.HEIGHT).

(** ** The backend of the specification *)

Module SpecBackend.

(** Modelled from the spec: the input latch, a pressed flag for each of
    the eight buttons.  It belongs to the backend instance, which is not
    part of the Python sources. *)
Record Latch := mkLatch {
  up_pressed : bool;
  down_pressed : bool;
  left_pressed : bool;
  right_pressed : bool;
  b_pressed : bool;
  a_pressed : bool;
  select_pressed : bool;
  start_pressed : bool;
}.

(** Modelled from the spec: the latch a new instance starts with, all
  buttons released. *)
Definition released : Latch :=
  mkLatch false false false false false false false false.

(** Modelled from the spec: the latched state of one button. *)
Definition pressed (k : Key) (l : Latch) : bool :=
  match k with
  | Up => up_pressed l | Down => down_pressed l
  | Left => left_pressed l | Right => right_pressed l
  | B => b_pressed l | A => a_pressed l
  | Select => select_pressed l | Start => start_pressed l
  end.

(** Modelled from the spec: overwriting the latched state of one button. *)
Definition set_button (k : Key) (v : bool) (l : Latch) : Latch :=
  let '(mkLatch u d le r b a se st) := l in
  match k with
  | Up => mkLatch v d le r b a se st
  | Down => mkLatch u v le r b a se st
  | Left => mkLatch u d v r b a se st
  | Right => mkLatch u d le v b a se st
  | B => mkLatch u d le r v a se st
  | A => mkLatch u d le r b v se st
  | Select => mkLatch u d le r b a v st
  | Start => mkLatch u d le r b a se v
  end.

(** Modelled from the spec: the emulated hardware, which the
    specification leaves to the emulation core and which is not part of
    the Python sources: loading a ROM image, resetting, emulating one
    frame under given inputs, and reading the game's status, termination
    flag, score and picture. *)
Record Emulator := {
  machine : Type;
  load_rom : list Z -> option machine;
  reset : machine -> machine;
  status_of : machine -> Z;
  emulate_frame : Latch -> machine -> machine;
  game_over : machine -> bool;
  score_of : machine -> Z;
  colour : machine -> Z -> Z -> Z;
}.

(** Modelled from the spec: the state of one backend instance, whose
    implementation (the Rust library behind [libpath]) is not part of the
    Python sources.  It owns the emulated machine and the input latch,
    tells whether an episode is running, and counts the frames it has
    rendered. *)
Record instance {E : Emulator} := mkInstance {
  core : machine E;
  latch : Latch;
  running : bool;
  frames : nat;
}.
Arguments instance : clear implicits.
Arguments mkInstance {E} _ _ _ _.

Section SpecBackend.
Context {E : Emulator}.

(** Modelled from the spec: create instance.  A ROM the emulator cannot
    load gives no instance; otherwise the latch is all released and no
    episode has been started. *)
Definition initialize (rom_path : list Z) : option (instance E) :=
  match load_rom E rom_path with
  | Some m => Some (mkInstance m released false O)
  | None => None
  end.

(** Modelled from the spec: start episode.  The emulated state is reset,
    a lingering termination is cleared, and a status code is returned;
    the latch is left alone. *)
Definition start_episode (i : instance E) : instance E * Z :=
  (mkInstance (reset E (core i)) (latch i) true (frames i),
   status_of E (reset E (core i))).

(** Modelled from the spec: advance one frame.  The current latch is
    sampled, exactly one frame is emulated and counted, and the episode
    stops running once the game reports its end. *)
Definition run_frame (i : instance E) : instance E :=
  let m := emulate_frame E (latch i) (core i) in
  mkInstance m (latch i) (running i && negb (game_over E m)) (S (frames i)).

(** Modelled from the spec: query running. *)
Definition is_running (i : instance E) : bool := running i.

(** Modelled from the spec: set button state.  Only the latch entry of
    that button is overwritten. *)
Definition set_key_state (i : instance E) (k : Key) (v : bool) : instance E :=
  mkInstance (core i) (set_button k v (latch i)) (running i) (frames i).

(** Modelled from the spec: query score. *)
Definition get_score (i : instance E) : Z := score_of E (core i).

(** Modelled from the spec: query pixel buffer.  160 by 144 packed
    32-bit pixels, row-major, no padding. *)
Definition get_pixels (i : instance E) : list Z :=
  row_major (fun x y => to_uint32 (colour E (core i) x y)).

#[export] Instance backend : Backend (instance E) :=
  {| be_initialize := initialize;
     be_start_episode := start_episode;
     be_run_frame := run_frame;
     be_is_running := is_running;
     be_set_key_state := set_key_state;
     be_get_score := get_score;
     be_get_pixels := get_pixels |}.
End SpecBackend.
End SpecBackend.

(** ** A small emulator to run the model on

    The machine is a counter of emulated frames.  The only ROM it can load
    is the file [t.gb]; holding Start makes a frame count for eleven; the
    game is over at a hundred; the picture is opaque (top byte 255) with
    the counter and the coordinates in the lower bytes. *)
Module Stub.
Definition rom : list Z := [116; 46; 103; 98].

Definition emulator : SpecBackend.Emulator :=
  {| SpecBackend.machine := Z;
     SpecBackend.load_rom := fun path => if decide (path = rom) then Some 0 else None;
     SpecBackend.reset := fun _ => 0;
     SpecBackend.status_of := fun _ => 7;
     SpecBackend.emulate_frame := fun latch m =>
       if SpecBackend.start_pressed latch then m + 11 else m + 1;
     SpecBackend.game_over := fun m => 100 <=? m;
     SpecBackend.score_of := fun m => m;
     SpecBackend.colour := fun m x y => 4278190080 + m * 65536 + y * 256 + x |}.

Definition inst : Type := SpecBackend.instance emulator.

Definition backend : Backend inst := SpecBackend.backend.

(** The process before any session exists. *)
Definition boot : state inst := mkState None ∅ [].

(** The instance the library makes of [t.gb]. *)
Definition first_instance : inst :=
  SpecBackend.mkInstance (E := emulator) 0 SpecBackend.released false O.

(** The picture of the machine [m], as the buffer holds it. *)
Definition picture (m x y : Z) : Z :=
  to_uint32 (SpecBackend.colour emulator m x y).

(** The state after [Environment("t.gb")] succeeded, if it does. *)
Definition fresh_session : state inst :=
  match @construct inst backend rom boot with
  | Ok _ s => s
  | _ => boot
  end.
End Stub.

(** ** Notions used in the statements *)

(** How an item type reads one word of the buffer. *)
Definition read_word (d : dtype) (u : Z) : Z :=
  match d with
  | int32 => to_int32 u
  | uint32 => to_uint32 u
  end.

Section Notions.
Context {inst : Type} {be : Backend inst}.

(** Two states that differ at most in the log of library calls. *)
Definition same_world (s s' : state inst) : Prop :=
  _Environment__obj s = _Environment__obj s' /\ heap s = heap s'.

Definition same_result (r r' : result inst value) : Prop :=
  match r, r' with
  | Ok v s, Ok v' s' => v = v' /\ same_world s s'
  | Raise e s, Raise e' s' => e = e' /\ same_world s s'
  | Undefined, Undefined => True
  | _, _ => False
  end.

(** The specification's name, [InitializationError], for the exception
    [__init__] raises when the library answers null. *)
Definition InitializationError : exn :=
  Exception_ "failed to initialize environment (maybe the rom path was incorrect?)".

(** The pixel query answers with an array of [count] items that cannot
    be written through. *)
Definition read_only_view (count : Z) (s : state inst) : Prop :=
  exists a s',
    Environment.get_pixels s = Ok (VArray a) s' /\
    arr_count a = count /\
    arr_writeable a = false.
End Notions.

(** ** The demo at the end of the file, and further notions *)

Section Demo.
Context {inst : Type} {be : Backend inst}.

(** The truth value a [while] takes of what [is_running] returned (a
    [bool], as the C declaration says). *)
Definition truthy (v : value) : bool :=
  match v with
  | VBool b => b
  | _ => false
  end.

(** [while env.is_running(): env.run_frame(); frames += 1], given [fuel]
    turns of the loop; [None] when the fuel runs out before the loop
    ends, otherwise the value [frames] has when it ends. *)
Fixpoint while_running (fuel : nat) (frames : Z) : M inst (option Z) :=
  match fuel with
  | O => ret None
  | S fuel' =>
      do running <- Environment.is_running;
      if truthy running
      then Environment.run_frame >> while_running fuel' (frames + 1)
      else ret (Some frames)
  end.

(** The benchmark: [env.start_episode()], [frames = 0] and the loop.  The
    clock and the final [print] are left out; the result is the number
    the demo prints as the count of frames. *)
Definition benchmark (fuel : nat) : M inst (option Z) :=
  Environment.start_episode >> while_running fuel 0.

(** ["X:/Roms/Gameboy/Tetris (W) (V1.1) [!].gb"], as code points. *)
Definition demo_rom_path : list Z :=
  (fun c => Z.of_N (Ascii.N_of_ascii c))
    <$> list_ascii_of_string "X:/Roms/Gameboy/Tetris (W) (V1.1) [!].gb".

(** The body of [if __name__ == "__main__":]. *)
Definition main (fuel : nat) : M inst (option Z) :=
  construct demo_rom_path >> benchmark fuel.
End Demo.

(** A code point the strict UTF-8 codec refuses. *)
Definition unencodable (c : Z) : Prop :=
  c < 0 \/ 55296 <= c <= 57343 \/ 1114111 < c.

(** The handle a library call was made on; [initialize_environment] takes
    none. *)
Definition call_handle (c : call) : option N :=
  match c with
  | CInitialize _ => None
  | CDestroy p | CStartEpisode p | CRunFrame p | CIsRunning p
  | CSetKeyState p _ _ | CGetScore p | CGetPixels p => Some p
  end.

(** The calls that create or destroy an instance. *)
Definition lifecycle_call (c : call) : bool :=
  match c with
  | CInitialize _ | CDestroy _ => true
  | _ => false
  end.

(** The operations whose C function takes a [const Environment *]. *)
Definition const_query (o : op) : bool :=
  match o with
  | IsRunning | GetScore => true
  | _ => false
  end.

(** The operation returned a value. *)
Definition returned (o : observation) : bool :=
  match o with
  | Returned _ _ => true
  | _ => false
  end.

(** What a program shows with the [const] queries left out of it. *)
Fixpoint shown_without_queries (prog : list op) (obs : list observation)
    : list observation :=
  match prog, obs with
  | o :: prog', x :: obs' =>
      if const_query o then shown_without_queries prog' obs'
      else x :: shown_without_queries prog' obs'
  | _, _ => []
  end.

(** A second small emulator: it loads any ROM, counts the frames it has
    emulated since the last reset, and ends the game at [limit] frames, or
    never when there is no limit. *)
Definition counting_emulator (limit : option Z) : SpecBackend.Emulator :=
  {| SpecBackend.machine := Z;
     SpecBackend.load_rom := fun _ => Some 0;
     SpecBackend.reset := fun _ => 0;
     SpecBackend.status_of := fun _ => 0;
     SpecBackend.emulate_frame := fun _ m => m + 1;
     SpecBackend.game_over := fun m =>
       match limit with
       | Some l => l <=? m
       | None => false
       end;
     SpecBackend.score_of := fun m => m;
     SpecBackend.colour := fun m x y => m |}.

Definition counting_backend (limit : option Z)
    : Backend (SpecBackend.instance (counting_emulator limit)) :=
  SpecBackend.backend.

(** The instance it makes of a ROM. *)
Definition counting_start (limit : option Z)
    : SpecBackend.instance (counting_emulator limit) :=
  SpecBackend.mkInstance (E := counting_emulator limit)
    0 SpecBackend.released false O.

(** * Properties *)

(** ** Fixed-width integers *)

Lemma to_int32_range (z : Z) : in_int32 (to_int32 z).
Proof.
  unfold in_int32, to_int32.
  pose proof (Z.mod_pos_bound (z + 2 ^ 31) (2 ^ 32)).
  lia.
Qed.

Lemma to_uint32_range (z : Z) : 0 <= to_uint32 z < 2 ^ 32.
Proof. unfold to_uint32. apply Z.mod_pos_bound. lia. Qed.

Lemma to_int32_to_uint32 (z : Z) : to_int32 (to_uint32 z) = to_int32 z.
Proof.
  unfold to_int32, to_uint32. f_equal.
  rewrite Zplus_mod_idemp_l. reflexivity.
Qed.

(** The signed reading of an unsigned 32-bit word. *)
Lemma to_int32_of_word (u : Z) :
  0 <= u < 2 ^ 32 ->
  to_int32 u = if u <? 2 ^ 31 then u else u - 2 ^ 32.
Proof.
  intros Hu. unfold to_int32.
  destruct (Z.ltb_spec u (2 ^ 31)).
  - rewrite Z.mod_small by lia. lia.
  - replace (u + 2 ^ 31) with (u - 2 ^ 31 + 1 * 2 ^ 32) by lia.
    rewrite Z_mod_plus_full, Z.mod_small by lia. lia.
Qed.

Lemma low_byte (z : Z) : Z.land z 255 = z mod 2 ^ 8.
Proof. change 255 with (Z.ones 8). apply Z.land_ones. lia. Qed.

(** Laying a word out in memory and reading it back as [uint32] gives its
    low 32 bits. *)
Lemma decode_uint32_le_bytes32 (u : Z) (rest : list Z) :
  decode_items uint32 (le_bytes32 u ++ rest)
  = to_uint32 u :: decode_items uint32 rest.
Proof.
  cbn [le_bytes32 app decode_items decode_item]. f_equal.
  unfold le_word32, to_uint32.
  rewrite !low_byte, !Z.shiftr_div_pow2, !Z.shiftl_mul_pow2 by lia.
  change (2 ^ 8) with 256. change (2 ^ 16) with 65536.
  change (2 ^ 24) with 16777216. change (2 ^ 32) with 4294967296.
  Z.div_mod_to_equations. lia.
Qed.

(** Read back as [int32], the same bytes give the two's complement value. *)
Lemma decode_int32_le_bytes32 (u : Z) (rest : list Z) :
  decode_items int32 (le_bytes32 u ++ rest)
  = to_int32 u :: decode_items int32 rest.
Proof.
  pose proof (decode_uint32_le_bytes32 u rest) as Hu.
  cbn [le_bytes32 app decode_items decode_item] in *.
  injection Hu as Hw. rewrite Hw. f_equal. apply to_int32_to_uint32.
Qed.

Lemma memory_cons (u : Z) (us : list Z) :
  mjoin (le_bytes32 <$> u :: us) = le_bytes32 u ++ mjoin (le_bytes32 <$> us).
Proof. reflexivity. Qed.

Lemma decode_int32_memory (us : list Z) :
  decode_items int32 (mjoin (le_bytes32 <$> us)) = to_int32 <$> us.
Proof.
  induction us as [|u us IH].
  - reflexivity.
  - rewrite memory_cons, decode_int32_le_bytes32, IH. reflexivity.
Qed.

Lemma decode_uint32_memory (us : list Z) :
  decode_items uint32 (mjoin (le_bytes32 <$> us)) = to_uint32 <$> us.
Proof.
  induction us as [|u us IH].
  - reflexivity.
  - rewrite memory_cons, decode_uint32_le_bytes32, IH. reflexivity.
Qed.

Lemma length_memory (us : list Z) :
  length (mjoin (le_bytes32 <$> us)) = (4 * length us)%nat.
Proof.
  induction us as [|u us IH]; [reflexivity|].
  rewrite memory_cons, length_app, IH. cbn [le_bytes32 length]. lia.
Qed.

(** A prefix of whole words of the memory is the memory of a prefix. *)
Lemma take_memory (n : nat) (us : list Z) :
  take (4 * n) (mjoin (le_bytes32 <$> us)) = mjoin (le_bytes32 <$> take n us).
Proof.
  revert us. induction n as [|n IH]; intros us.
  - rewrite Nat.mul_0_r. reflexivity.
  - destruct us as [|u us]; [reflexivity|].
    replace (4 * S n)%nat with (S (S (S (S (4 * n))))) by lia.
    rewrite memory_cons. cbn [le_bytes32 app take].
    rewrite IH. reflexivity.
Qed.

(** ** The methods on a live session *)

Section SessionFacts.
Context {inst : Type} {be : Backend inst}.
Implicit Types (s : state inst) (p : N) (e : inst).

Lemma live_store s p e e' : live s p e -> live (store p e' s) p e'.
Proof. intros [Ho _]. split; [exact Ho | apply lookup_insert_eq]. Qed.

Lemma live_log s p e c : live s p e -> live (log c s) p e.
Proof. intros [Ho Hh]. split; assumption. Qed.

Lemma live_inj s p e p' e' : live s p e -> live s p' e' -> p = p' /\ e = e'.
Proof.
  intros [Ho Hh] [Ho' Hh']. rewrite Ho in Ho'. injection Ho' as <-.
  rewrite Hh in Hh'. injection Hh' as <-. auto.
Qed.

(** Unfolds a method down to the library call and looks the handle up. *)
Ltac call_on_live H :=
  let Ho := fresh "Ho" in
  let Hh := fresh "Hh" in
  destruct H as [Ho Hh];
  unfold Environment.start_episode, Environment.run_frame,
    Environment.is_running, Environment.set_key_state,
    Environment.get_score, Environment.get_pixels,
    lib.start_episode, lib.run_frame, lib.is_running, lib.set_key_state,
    lib.get_score, lib.get_pixels, bind, get_obj, deref;
  rewrite Ho; cbn beta iota; try rewrite Hh.

Lemma start_episode_live s p e :
  live s p e ->
  Environment.start_episode s
  = Ok VNone (store p (fst (be_start_episode e)) (log (CStartEpisode p) s)).
Proof.
  intros H. call_on_live H. destruct (be_start_episode e). reflexivity.
Qed.

Lemma run_frame_live s p e :
  live s p e ->
  Environment.run_frame s
  = Ok VNone (store p (be_run_frame e) (log (CRunFrame p) s)).
Proof. intros H. call_on_live H. reflexivity. Qed.

Lemma is_running_live s p e :
  live s p e ->
  Environment.is_running s
  = Ok (VBool (be_is_running e)) (log (CIsRunning p) s).
Proof. intros H. call_on_live H. reflexivity. Qed.

Lemma key_of_value_key_value (k : Key) : key_of_value (key_value k) = Some k.
Proof. destruct k; reflexivity. Qed.

Lemma key_value_range (k : Key) : 0 <= key_value k <= 7.
Proof. destruct k; cbn; lia. Qed.

Lemma set_key_state_live s p e (k : Key) (v : bool) :
  live s p e ->
  Environment.set_key_state (key_value k) v s
  = Ok VNone (store p (be_set_key_state e k v)
                (log (CSetKeyState p (key_value k) v) s)).
Proof.
  intros H. call_on_live H.
  pose proof (key_value_range k) as Hk.
  destruct (Z.ltb_spec (key_value k) 0); [lia|].
  destruct (Z.leb_spec (2 ^ 32) (key_value k)); [lia|].
  cbn [orb]. rewrite key_of_value_key_value.
  unfold deref. rewrite Hh. reflexivity.
Qed.

Lemma get_score_live s p e :
  live s p e ->
  Environment.get_score s
  = Ok (VInt (to_int32 (be_get_score e))) (log (CGetScore p) s).
Proof. intros H. call_on_live H. reflexivity. Qed.

Lemma get_pixels_live s p e :
  live s p e ->
  Environment.get_pixels s
  = Ok (VArray (mkArray (mkBuffer (PixelsOf p) 92160 false) int32 23040 true))
       (log (CGetPixels p) s).
Proof. intros H. call_on_live H. reflexivity. Qed.
End SessionFacts.

(** ** Construction, stepping, score and episode start *)

Section SessionTheorems.
Context {inst : Type} {be : Backend inst}.
Implicit Types (s : state inst) (p : N) (e : inst).

Lemma construct_null s0 rom_path bytes :
  str_encode rom_path = Some bytes ->
  be_initialize bytes = None ->
  construct rom_path s0
  = Raise InitializationError
      (mkState (Some ffi.NULL) (heap s0) (trace s0 ++ [CInitialize bytes])).
Proof.
  intros Henc Hnull.
  unfold construct, Environment.__init__. rewrite Henc.
  unfold bind, lib.initialize_environment. rewrite Hnull. reflexivity.
Qed.

Lemma del_null (h : gmap N inst) (t : list call) :
  Environment.__del__ (mkState (Some ffi.NULL) h t)
  = Ok VNone (mkState (Some PyNone) h t).
Proof. reflexivity. Qed.

Lemma attempt_null s0 rom_path bytes :
  str_encode rom_path = Some bytes ->
  be_initialize bytes = None ->
  attempt rom_path s0
  = Some (mkState (Some PyNone) (heap s0) (trace s0 ++ [CInitialize bytes])).
Proof.
  intros Henc Hnull. unfold attempt.
  rewrite (construct_null s0 rom_path bytes Henc Hnull).
  unfold reclaim. rewrite del_null. reflexivity.
Qed.

Lemma attempts_null (n : nat) s0 rom_path bytes :
  str_encode rom_path = Some bytes ->
  be_initialize bytes = None ->
  exists sn,
    attempts n rom_path s0 = Some sn /\
    heap sn = heap s0 /\
    trace sn = trace s0 ++ replicate n (CInitialize bytes).
Proof.
  intros Henc Hnull. revert s0.
  induction n as [|n IH]; intros s0.
  - exists s0. cbn. rewrite app_nil_r. auto.
  - cbn [attempts]. rewrite (attempt_null s0 rom_path bytes Henc Hnull).
    destruct (IH (mkState (Some PyNone) (heap s0)
                    (trace s0 ++ [CInitialize bytes])))
      as (sn & Hrun & Hheap & Htrace).
    exists sn. split; [exact Hrun|]. split; [exact Hheap|].
    rewrite Htrace. cbn [trace replicate]. rewrite <- app_assoc. reflexivity.
Qed.

(** C1. When the library answers null for the encoded ROM path,
    [Environment(rom_path)] raises the initialization exception; the
    object is left holding the null pointer and the library holds the
    same instances as before; when the object is reclaimed, [__del__]
    returns without calling [destroy_environment]; and any number of
    failed constructions in a row leaves the set of allocated instances
    unchanged, the only library calls being the [initialize_environment]
    ones. *)
Theorem failed_construction_retains_nothing s0 rom_path bytes :
  str_encode rom_path = Some bytes ->
  be_initialize bytes = None ->
  exists s1 s2,
    construct rom_path s0 = Raise InitializationError s1 /\
    _Environment__obj s1 = Some ffi.NULL /\
    heap s1 = heap s0 /\
    Environment.__del__ s1 = Ok VNone s2 /\
    heap s2 = heap s0 /\
    trace s2 = trace s0 ++ [CInitialize bytes] /\
    forall n : nat, exists sn,
      attempts n rom_path s0 = Some sn /\
      heap sn = heap s0 /\
      trace sn = trace s0 ++ replicate n (CInitialize bytes).
Proof.
  intros Henc Hnull.
  eexists _, _. split; [apply (construct_null s0 _ _ Henc Hnull)|].
  split; [reflexivity|]. split; [reflexivity|].
  split; [apply del_null|]. split; [reflexivity|]. split; [reflexivity|].
  intros n. apply (attempts_null n s0 _ _ Henc Hnull).
Qed.

Lemma run_frames_live (n : nat) s p e :
  live s p e ->
  exists sn,
    after (replicate n RunFrame) s = Some sn /\
    session (replicate n RunFrame) s = replicate n (Returned VNone None) /\
    live sn p (Nat.iter n be_run_frame e) /\
    trace sn = trace s ++ replicate n (CRunFrame p).
Proof.
  revert s e. induction n as [|n IH]; intros s e Hlive.
  - exists s. cbn. rewrite app_nil_r. auto.
  - pose proof (run_frame_live s p e Hlive) as Hstep.
    destruct (IH _ (be_run_frame e)
                (live_store _ p e _ (live_log s p e (CRunFrame p) Hlive)))
      as (sn & Hafter & Hsess & Hsn & Htrace).
    exists sn. cbn [replicate after session perform]. rewrite Hstep.
    cbn [observe]. rewrite Hafter, Hsess, Htrace.
    rewrite Nat.iter_succ_r. cbn [trace store log].
    rewrite <- app_assoc. auto.
Qed.

(** C3. On a live session, after [start_episode], calling [run_frame]
    [n] times returns [None] each time, leaves the instance in the state
    reached by [n] frame advances of the backend one after the other, and
    adds exactly [n] [run_frame] calls, and nothing else, to the log of
    library calls; a counter that the backend increments on each advance
    has grown by exactly [n]. *)
Theorem step_n_times_advances_n_frames (n : nat) (counter : inst -> nat) s p e :
  live s p e ->
  (forall e', counter (be_run_frame e') = S (counter e')) ->
  exists s1 sn,
    Environment.start_episode s = Ok VNone s1 /\
    live s1 p (fst (be_start_episode e)) /\
    after (replicate n RunFrame) s1 = Some sn /\
    session (replicate n RunFrame) s1 = replicate n (Returned VNone None) /\
    live sn p (Nat.iter n be_run_frame (fst (be_start_episode e))) /\
    trace sn = trace s1 ++ replicate n (CRunFrame p) /\
    counter (Nat.iter n be_run_frame (fst (be_start_episode e)))
    = (counter (fst (be_start_episode e)) + n)%nat.
Proof.
  intros Hlive Hcount.
  pose proof (start_episode_live s p e Hlive) as Hstart.
  pose proof (live_store _ p e (fst (be_start_episode e))
                (live_log s p e (CStartEpisode p) Hlive)) as Hlive1.
  destruct (run_frames_live n _ p _ Hlive1) as (sn & Hafter & Hsess & Hsn & Htrace).
  eexists _, sn. split; [exact Hstart|]. split; [exact Hlive1|].
  split; [exact Hafter|]. split; [exact Hsess|]. split; [exact Hsn|].
  split; [exact Htrace|].
  clear - Hcount. induction n as [|n IH]; cbn [Nat.iter nat_rect].
  - lia.
  - unfold Nat.iter in IH. rewrite Hcount, IH. lia.
Qed.

(** C6. On a live session [get_score] returns the score the backend
    instance reports in its current state, as a signed 32-bit integer;
    the session object and the library's instances are as before, the
    call being the only addition to the log; and whatever operations
    follow, a later [get_score] again returns the score of the state the
    instance is in at that moment. *)
Theorem get_score_reads_backend_state s p e :
  live s p e ->
  exists z s',
    Environment.get_score s = Ok (VInt z) s' /\
    z = to_int32 (be_get_score e) /\
    in_int32 z /\
    _Environment__obj s' = _Environment__obj s /\
    heap s' = heap s /\
    trace s' = trace s ++ [CGetScore p] /\
    forall prog s2 e2,
      after prog s' = Some s2 ->
      live s2 p e2 ->
      exists s3,
        Environment.get_score s2 = Ok (VInt (to_int32 (be_get_score e2))) s3.
Proof.
  intros Hlive. eexists _, _.
  split; [apply (get_score_live s p e Hlive)|].
  split; [reflexivity|]. split; [apply to_int32_range|].
  split; [reflexivity|]. split; [reflexivity|]. split; [reflexivity|].
  intros prog s2 e2 _ Hlive2. eexists. apply (get_score_live s2 p e2 Hlive2).
Qed.
End SessionTheorems.

Section StatusDiscarded.
Context {inst : Type} (be : Backend inst) (status : inst -> Z).

Lemma perform_with_status (o : op) (s : state inst) :
  @perform inst (with_status be status) o s = @perform inst be o s.
Proof.
  destruct o; try reflexivity.
  cbn [perform]. unfold Environment.start_episode, bind, get_obj.
  destruct (_Environment__obj s) as [[q|]|]; try reflexivity.
  unfold lib.start_episode, deref.
  destruct (heap s !! q) as [e|]; [|reflexivity].
  cbn [be_start_episode with_status].
  destruct (@be_start_episode inst be e). reflexivity.
Qed.

Lemma observe_with_status (r : result inst value) :
  @observe inst (with_status be status) r = @observe inst be r.
Proof. destruct r as [[| | |a] s|e s|]; reflexivity. Qed.

Lemma session_with_status (prog : list op) (s : state inst) :
  @session inst (with_status be status) prog s = @session inst be prog s.
Proof.
  revert s. induction prog as [|o prog IH]; intros s; [reflexivity|].
  cbn [session]. rewrite perform_with_status, observe_with_status.
  f_equal. destruct (perform o s); auto.
Qed.

(** C9. On a live session [start_episode] hands the handle to the
    library, which resets the instance, and returns [None] whatever
    status the library reports; no program of session operations can
    tell a backend from one that reports other status codes. *)
Theorem start_episode_discards_status (s : state inst) (p : N) (e : inst) :
  live s p e ->
  @Environment.start_episode inst (with_status be status) s
  = Ok VNone (store p (fst (@be_start_episode inst be e)) (log (CStartEpisode p) s)) /\
  @lib.start_episode inst (with_status be status) (CData p) s
  = Ok (VInt (to_int32 (status e)))
      (store p (fst (@be_start_episode inst be e)) (log (CStartEpisode p) s)) /\
  forall prog : list op,
    @session inst (with_status be status) prog s = @session inst be prog s.
Proof.
  intros Hlive. split; [|split].
  - rewrite (@start_episode_live inst (with_status be status) s p e Hlive).
    reflexivity.
  - destruct Hlive as [_ Hh]. unfold lib.start_episode, deref.
    rewrite Hh. reflexivity.
  - intros prog. apply session_with_status.
Qed.
End StatusDiscarded.

(** ** The pixel view *)

Lemma length_row (f : Z -> Z -> Z) (y : Z) :
  length ((fun x => f x y) <$> seqZ 0 Environment.WIDTH)
  = Z.to_nat Environment.WIDTH.
Proof. rewrite length_fmap, length_seqZ. reflexivity. Qed.

Lemma rows_same_length (f : Z -> Z -> Z) :
  Forall (fun l : list Z => length l = Z.to_nat Environment.WIDTH)
    ((fun y => (fun x => f x y) <$> seqZ 0 Environment.WIDTH)
       <$> seqZ 0 Environment.HEIGHT).
Proof.
  apply Forall_fmap, Forall_forall. intros y _. apply length_row.
Qed.

Lemma length_row_major (f : Z -> Z -> Z) :
  Z.of_nat (length (row_major f)) = Environment.WIDTH * Environment.HEIGHT.
Proof.
  unfold row_major.
  rewrite length_join, (sum_list_fmap_same (Z.to_nat Environment.WIDTH))
    by apply rows_same_length.
  rewrite length_fmap, length_seqZ.
  unfold Environment.WIDTH, Environment.HEIGHT. lia.
Qed.

(** The pixel in column [x] of row [y] sits at index [y * WIDTH + x]. *)
Lemma row_major_lookup (f : Z -> Z -> Z) (x y : Z) :
  0 <= x < Environment.WIDTH ->
  0 <= y < Environment.HEIGHT ->
  row_major f !! Z.to_nat (y * Environment.WIDTH + x) = Some (f x y).
Proof.
  intros Hx Hy. unfold row_major.
  replace (Z.to_nat (y * Environment.WIDTH + x))
    with (Z.to_nat y * Z.to_nat Environment.WIDTH + Z.to_nat x)%nat
    by (unfold Environment.WIDTH in *; lia).
  apply (join_lookup_Some_same_length' (Z.to_nat Environment.WIDTH)).
  - apply rows_same_length.
  - lia.
  - exists ((fun x => f x y) <$> seqZ 0 Environment.WIDTH). split.
    + rewrite list_lookup_fmap, lookup_seqZ_lt by lia.
      rewrite Z.add_0_l, Z2Nat.id by lia. reflexivity.
    + rewrite list_lookup_fmap, lookup_seqZ_lt by lia.
      rewrite Z.add_0_l, Z2Nat.id by lia. reflexivity.
Qed.

Lemma decode_memory (d : dtype) (us : list Z) :
  decode_items d (mjoin (le_bytes32 <$> us)) = read_word d <$> us.
Proof.
  destruct d; [apply decode_int32_memory | apply decode_uint32_memory].
Qed.

Section PixelView.
Context {inst : Type} {be : Backend inst}.
Implicit Types (s : state inst) (p : N) (e : inst).

(** An array of [WIDTH * HEIGHT] four-byte items over the whole buffer of
    an instance shows the first [WIDTH * HEIGHT] words of that buffer. *)
Lemma tolist_pixels (d : dtype) (w : bool) s p e :
  heap s !! p = Some e ->
  Environment.WIDTH * Environment.HEIGHT <= Z.of_nat (length (be_get_pixels e)) ->
  tolist (mkArray (mkBuffer (PixelsOf p) 92160 false) d 23040 w) s
  = Some (read_word d <$> take (Z.to_nat 23040) (be_get_pixels e)).
Proof.
  intros Hh Hlen. unfold tolist, buffer_read.
  cbn [arr_base buf_ptr owner buf_size arr_dtype arr_count].
  rewrite Hh. unfold pixel_memory. rewrite length_memory.
  unfold Environment.WIDTH, Environment.HEIGHT in Hlen.
  destruct (Z.leb_spec 92160 (Z.of_nat (4 * length (be_get_pixels e)))); [|lia].
  change (0 <=? 92160) with true. cbn [andb]. f_equal.
  replace (Z.to_nat 92160) with (4 * Z.to_nat 23040)%nat by lia.
  rewrite take_memory.
  rewrite take_ge.
  - apply decode_memory.
  - rewrite length_memory, length_take. unfold itemsize. lia.
Qed.

Lemma lookup_take_pixels (us : list Z) (i : nat) :
  Z.of_nat i < 23040 ->
  take (Z.to_nat 23040) us !! i = us !! i.
Proof. intros Hi. apply lookup_take_lt. lia. Qed.
End PixelView.

Section PixelTheorems.
Context {inst : Type} {be : Backend inst}.
Implicit Types (s : state inst) (p : N) (e : inst).

(** C2 (as amended). On a live session whose backend buffer holds a frame
    laid out row by row, [get_pixels] returns an array of exactly
    [WIDTH * HEIGHT] = 160 * 144 = 23040 items of four bytes each over the
    92160 bytes of that buffer, without touching the session or the
    instance; the item at index [y * 160 + x] is the pixel in column [x] of
    row [y] of the current frame, read as a 32-bit value.  The array
    borrows the backend's memory: once the next frame is advanced the same
    array shows the new frame.  It is not read-only; its writeable flag is
    set. *)
Theorem get_pixels_view s p e (frame : Z -> Z -> Z) :
  live s p e ->
  be_get_pixels e = row_major frame ->
  exists a s' items,
    Environment.get_pixels s = Ok (VArray a) s' /\
    Environment.WIDTH = 160 /\ Environment.HEIGHT = 144 /\
    arr_count a = Environment.WIDTH * Environment.HEIGHT /\
    arr_count a = 23040 /\
    itemsize (arr_dtype a) = 4 /\
    buf_size (arr_base a) = 4 * 23040 /\
    arr_writeable a = true /\
    _Environment__obj s' = _Environment__obj s /\
    heap s' = heap s /\
    tolist a s' = Some items /\
    Z.of_nat (length items) = 23040 /\
    (forall x y, 0 <= x < 160 -> 0 <= y < 144 ->
       items !! Z.to_nat (y * 160 + x) = Some (to_int32 (frame x y))) /\
    forall frame',
      be_get_pixels (be_run_frame e) = row_major frame' ->
      exists s'',
        Environment.run_frame s' = Ok VNone s'' /\
        tolist a s'' = Some (to_int32 <$> row_major frame').
Proof.
  intros Hlive Hframe.
  pose proof (length_row_major frame) as Hlen.
  assert (Hitems : forall e' f s1,
            heap s1 !! p = Some e' -> be_get_pixels e' = row_major f ->
            tolist (mkArray (mkBuffer (PixelsOf p) 92160 false) int32 23040 true) s1
            = Some (to_int32 <$> row_major f)).
  { intros e' f s1 Hh Hf.
    rewrite (tolist_pixels int32 true s1 p e' Hh)
      by (rewrite Hf, length_row_major; lia).
    rewrite Hf, take_ge; [reflexivity|].
    pose proof (length_row_major f) as Hl.
    unfold Environment.WIDTH, Environment.HEIGHT in Hl. lia. }
  eexists _, _, _.
  split; [apply (get_pixels_live s p e Hlive)|].
  do 9 (split; [reflexivity|]).
  split; [apply (Hitems e frame); [apply Hlive | exact Hframe]|].
  split; [|split].
  - rewrite length_fmap. exact Hlen.
  - intros x y Hx Hy. rewrite list_lookup_fmap.
    change (y * 160 + x) with (y * Environment.WIDTH + x).
    rewrite (row_major_lookup frame x y)
      by (unfold Environment.WIDTH, Environment.HEIGHT; lia).
    reflexivity.
  - intros frame' Hframe'. eexists.
    split; [apply (run_frame_live _ p e (live_log s p e _ Hlive))|].
    apply (Hitems (be_run_frame e) frame'); [|exact Hframe'].
    apply lookup_insert_eq.
Qed.

(** C10. On a live session [get_pixels] builds its array with the item
    type [int32] over the backend's [uint32_t] buffer: a pixel word [u] is
    shown as [u] when it is below 2^31 and as [u - 2^32], a negative
    number, when it is 2^31 or more; read with the item type [uint32] the
    same array would show [u] itself. *)
Theorem get_pixels_reads_words_as_signed s p e (i : nat) (u : Z) :
  live s p e ->
  Environment.WIDTH * Environment.HEIGHT <= Z.of_nat (length (be_get_pixels e)) ->
  Z.of_nat i < Environment.WIDTH * Environment.HEIGHT ->
  be_get_pixels e !! i = Some u ->
  0 <= u < 2 ^ 32 ->
  exists a s' items items_u,
    Environment.get_pixels s = Ok (VArray a) s' /\
    arr_dtype a = int32 /\
    tolist a s' = Some items /\
    items !! i = Some (if u <? 2 ^ 31 then u else u - 2 ^ 32) /\
    (2 ^ 31 <= u -> items !! i = Some (u - 2 ^ 32) /\ u - 2 ^ 32 < 0) /\
    tolist (mkArray (arr_base a) uint32 (arr_count a) (arr_writeable a)) s'
    = Some items_u /\
    items_u !! i = Some u.
Proof.
  intros Hlive Hlen Hi Hu Hrange.
  assert (Hh : heap (log (CGetPixels p) s) !! p = Some e) by apply Hlive.
  assert (Hsigned : (read_word int32 <$> take (Z.to_nat 23040) (be_get_pixels e)) !! i
                    = Some (if u <? 2 ^ 31 then u else u - 2 ^ 32)).
  { rewrite list_lookup_fmap, lookup_take_pixels, Hu by exact Hi.
    cbn [fmap option_fmap option_map read_word].
    rewrite to_int32_of_word by exact Hrange.
    reflexivity. }
  eexists _, _, _, _.
  split; [apply (get_pixels_live s p e Hlive)|].
  split; [reflexivity|].
  split; [apply (tolist_pixels int32 true _ p e Hh Hlen)|].
  split; [exact Hsigned|].
  split; [|split].
  - intros Hbig. rewrite Hsigned.
    destruct (Z.ltb_spec u (2 ^ 31)); [lia|]. split; [reflexivity|lia].
  - cbn [arr_base arr_count arr_writeable].
    apply (tolist_pixels uint32 true _ p e Hh Hlen).
  - rewrite list_lookup_fmap, lookup_take_pixels, Hu by exact Hi.
    cbn [fmap option_fmap option_map read_word]. unfold to_uint32.
    rewrite Z.mod_small by exact Hrange. reflexivity.
Qed.
End PixelTheorems.

(** ** The button enumeration *)

(** C8. The enumeration has exactly the eight buttons Up, Down, Left,
    Right, B, A, Select, Start, in that order and without repetition, with
    the values 0 to 7; no other integer denotes a button. *)
Theorem key_enumeration_is_fixed :
  all_keys = [Up; Down; Left; Right; B; A; Select; Start] /\
  key_value <$> all_keys = [0; 1; 2; 3; 4; 5; 6; 7] /\
  length all_keys = 8%nat /\
  NoDup all_keys /\
  (forall k : Key, k ∈ all_keys) /\
  (forall k : Key, key_of_value (key_value k) = Some k) /\
  (forall (z : Z) (k : Key), key_of_value z = Some k -> z = key_value k) /\
  (forall z : Z, is_Some (key_of_value z) <-> 0 <= z <= 7).
Proof.
  split; [reflexivity|]. split; [reflexivity|]. split; [reflexivity|].
  split; [|split; [|split; [|split]]].
  - apply (bool_decide_unpack _). vm_compute. exact I.
  - intros k. destruct k; apply (bool_decide_unpack _); vm_compute; exact I.
  - apply key_of_value_key_value.
  - intros z k Hz.
    destruct z as [|q|q]; try discriminate;
      repeat (destruct q as [q|q|]; try discriminate);
      cbn in Hz; injection Hz as <-; reflexivity.
  - intros z. split.
    + intros [k Hk].
      destruct z as [|q|q]; try discriminate;
        repeat (destruct q as [q|q|]; try discriminate); lia.
    + intros Hz.
      assert (z = 0 \/ z = 1 \/ z = 2 \/ z = 3 \/ z = 4 \/ z = 5 \/ z = 6 \/ z = 7)
        as Hcases by lia.
      destruct Hcases as [->|[->|[->|[->|[->|[->|[->| ->]]]]]]]; cbn; eauto.
Qed.

(** ** Programs of operations *)

Section Programs.
Context {inst : Type} {be : Backend inst}.
Implicit Types (s : state inst) (p : N) (e : inst).

Lemma same_world_refl s : same_world s s.
Proof. split; reflexivity. Qed.

(** With a button of the enumeration the call goes through to the
    library. *)
Lemma lib_set_key_state_key (q : N) (k : Key) (v : bool) s :
  lib.set_key_state (CData q) (key_value k) v s
  = deref (fun p => CSetKeyState p (key_value k) v) (CData q)
      (fun p e s1 => Ok VNone (store p (be_set_key_state e k v) s1)) s.
Proof.
  unfold lib.set_key_state.
  pose proof (key_value_range k) as Hk.
  destruct (Z.ltb_spec (key_value k) 0); [lia|].
  destruct (Z.leb_spec (2 ^ 32) (key_value k)); [lia|].
  cbn [orb]. rewrite key_of_value_key_value. reflexivity.
Qed.

(** The log of library calls has no influence on what an operation does. *)
Lemma perform_same_world (o : op) s s' :
  same_world s s' -> same_result (perform o s) (perform o s').
Proof.
  destruct s as [o1 h1 t1], s' as [o2 h2 t2]. intros [Ho Hh].
  cbn in Ho, Hh. subst o2 h2.
  assert (Hdone : forall (v : value) (h : gmap N inst) (ta tb : list call),
            same_result (Ok v (mkState o1 h ta)) (Ok v (mkState o1 h tb)))
    by (intros; repeat split; reflexivity).
  destruct o as [| | |k v| |]; cbn [perform];
    unfold Environment.start_episode, Environment.run_frame,
      Environment.is_running, Environment.set_key_state,
      Environment.get_score, Environment.get_pixels,
      bind, get_obj;
    (destruct o1 as [[q|]|]; cbn [_Environment__obj];
     [| repeat split; reflexivity ..]);
    rewrite ?lib_set_key_state_key;
    unfold lib.start_episode, lib.run_frame, lib.is_running,
      lib.get_score, lib.get_pixels, deref;
    cbn [heap];
    (destruct (h1 !! q) as [e|]; [|exact I]);
    try (destruct (be_start_episode e));
    apply Hdone.
Qed.

Lemma tolist_same_world (a : ndarray) s s' :
  same_world s s' -> tolist a s = tolist a s'.
Proof.
  intros [_ Hh]. unfold tolist, buffer_read. rewrite Hh. reflexivity.
Qed.

Lemma observe_same_result (r r' : result inst value) :
  same_result r r' -> observe r = observe r'.
Proof.
  destruct r as [v s|x s|], r' as [v' s'|x' s'|]; cbn; try contradiction.
  - intros [<- Hw]. destruct v; try reflexivity.
    rewrite (tolist_same_world a s s' Hw). reflexivity.
  - intros [<- _]. reflexivity.
  - reflexivity.
Qed.

Lemma session_same_world (prog : list op) s s' :
  same_world s s' -> session prog s = session prog s'.
Proof.
  revert s s'. induction prog as [|o prog IH]; intros s s' Hw; [reflexivity|].
  cbn [session].
  pose proof (perform_same_world o s s' Hw) as Hr.
  rewrite (observe_same_result _ _ Hr). f_equal.
  destruct (perform o s) as [v s1|x s1|], (perform o s') as [v' s1'|x' s1'|];
    cbn in Hr; try contradiction; try reflexivity; apply IH, Hr.
Qed.

Lemma construct_valid s0 rom_path bytes e :
  str_encode rom_path = Some bytes ->
  be_initialize bytes = Some e ->
  exists p,
    p <> 0%N /\ heap s0 !! p = None /\
    construct rom_path s0
    = Ok VNone (mkState (Some (CData p)) (<[p := e]> (heap s0))
                  (trace s0 ++ [CInitialize bytes])).
Proof.
  intros Henc Hinit.
  pose proof (is_fresh ({[0%N]} ∪ dom (heap s0))) as Hfresh.
  set (p := fresh ({[0%N]} ∪ dom (heap s0))) in *.
  assert (Hp : p <> 0%N) by set_solver.
  exists p. split; [exact Hp|]. split.
  - apply not_elem_of_dom. set_solver.
  - unfold construct, Environment.__init__. rewrite Henc.
    unfold bind, lib.initialize_environment. rewrite Hinit.
    cbn [log heap new_object]. fold p. cbn.
    destruct (N.eqb_spec p 0); [contradiction|]. reflexivity.
Qed.
End Programs.

(** ** Sessions over the backend of the specification *)

Section SpecSessions.
Import SpecBackend.
Context {E : Emulator}.
Implicit Types (s : state (instance E)) (p : N) (i : instance E).

Lemma set_button_pressed (k : Key) (v : bool) (l : Latch) :
  pressed k (set_button k v l) = v.
Proof. destruct l, k; reflexivity. Qed.

Lemma set_button_other (k k' : Key) (v : bool) (l : Latch) :
  k' <> k -> pressed k' (set_button k v l) = pressed k' l.
Proof. intros Hne. destruct l, k, k'; try reflexivity; contradiction. Qed.

Lemma set_button_twice (k : Key) (v : bool) (l : Latch) :
  set_button k v (set_button k v l) = set_button k v l.
Proof. destruct l, k; reflexivity. Qed.

(** Before an episode is started nothing but [start_episode] makes the
    instance run. *)
Lemma idle_until_start (prog : list op) s p i :
  live s p i ->
  running i = false ->
  StartEpisode ∉ prog ->
  exists s2 i2,
    after prog s = Some s2 /\
    live s2 p i2 /\
    running i2 = false /\
    Returned (VBool true) None ∉ session prog s.
Proof.
  revert s i. induction prog as [|o prog IH]; intros s i Hlive Hidle Hprog.
  - exists s, i. cbn. repeat split; try assumption; try apply Hlive.
    apply not_elem_of_nil.
  - apply not_elem_of_cons in Hprog as [Ho Hprog].
    assert (Hstep : exists v s1 i1,
              perform o s = Ok v s1 /\ live s1 p i1 /\ running i1 = false /\
              observe (perform o s) <> Returned (VBool true) None).
    { destruct o as [| | |k v| |]; cbn [perform].
      - contradiction.
      - eexists _, _, _. rewrite (run_frame_live s p i Hlive).
        split; [reflexivity|].
        split; [apply live_store with (e := i), live_log, Hlive|].
        split; [cbn; rewrite Hidle; reflexivity | discriminate].
      - eexists _, _, _. rewrite (is_running_live s p i Hlive).
        split; [reflexivity|]. split; [apply live_log, Hlive|].
        split; [exact Hidle|]. cbn. unfold is_running. rewrite Hidle.
        discriminate.
      - eexists _, _, _. rewrite (set_key_state_live s p i k v Hlive).
        split; [reflexivity|].
        split; [apply live_store with (e := i), live_log, Hlive|].
        split; [exact Hidle | discriminate].
      - eexists _, _, _. rewrite (get_score_live s p i Hlive).
        split; [reflexivity|]. split; [apply live_log, Hlive|].
        split; [exact Hidle | discriminate].
      - eexists _, _, _. rewrite (get_pixels_live s p i Hlive).
        split; [reflexivity|]. split; [apply live_log, Hlive|].
        split; [exact Hidle | discriminate]. }
    destruct Hstep as (v & s1 & i1 & Hperf & Hlive1 & Hidle1 & Hobs).
    destruct (IH s1 i1 Hlive1 Hidle1 Hprog) as (s2 & i2 & Hafter & Hlive2 & Hidle2 & Hsess).
    exists s2, i2. cbn [after session]. rewrite Hperf in *.
    repeat split; try assumption; try apply Hlive2.
    apply not_elem_of_cons. split; [congruence | exact Hsess].
Qed.

(** C4. When the ROM path encodes and the emulator can load the ROM,
    [Environment(rom_path)] returns a live session: the library has
    allocated exactly one instance more, at a fresh non-null address that
    the session now holds, and [initialize_environment] is the only call
    made, so no episode has been started.  The running-state query answers
    false on that session, and keeps answering false after any program of
    operations that does not contain [start_episode]. *)
Theorem construction_starts_no_episode s0 (rom_path bytes : list Z) (m : machine E) :
  str_encode rom_path = Some bytes ->
  load_rom E bytes = Some m ->
  exists p s1,
    construct rom_path s0 = Ok VNone s1 /\
    p <> 0%N /\
    heap s0 !! p = None /\
    heap s1 = <[p := mkInstance m released false O]> (heap s0) /\
    size (heap s1) = S (size (heap s0)) /\
    live s1 p (mkInstance m released false O) /\
    trace s1 = trace s0 ++ [CInitialize bytes] /\
    Environment.is_running s1 = Ok (VBool false) (log (CIsRunning p) s1) /\
    forall prog : list op,
      StartEpisode ∉ prog ->
      exists s2,
        after prog s1 = Some s2 /\
        (Returned (VBool true) None ∉ session prog s1) /\
        Environment.is_running s2 = Ok (VBool false) (log (CIsRunning p) s2).
Proof.
  intros Henc Hload.
  assert (Hinit : be_initialize bytes = Some (mkInstance m released false O)).
  { cbn. unfold initialize. rewrite Hload. reflexivity. }
  destruct (construct_valid s0 rom_path bytes _ Henc Hinit) as (p & Hp & Hfree & Hcons).
  assert (Hlive : live (mkState (Some (CData p))
                          (<[p := mkInstance m released false O]> (heap s0))
                          (trace s0 ++ [CInitialize bytes]))
                    p (mkInstance m released false O)).
  { split; [reflexivity | apply lookup_insert_eq]. }
  eexists p, _. split; [exact Hcons|].
  split; [exact Hp|]. split; [exact Hfree|]. split; [reflexivity|].
  split; [apply map_size_insert_None, Hfree|].
  split; [exact Hlive|]. split; [reflexivity|].
  split; [rewrite (is_running_live _ p _ Hlive); reflexivity|].
  intros prog Hprog.
  destruct (idle_until_start prog _ p _ Hlive eq_refl Hprog)
    as (s2 & i2 & Hafter & Hlive2 & Hidle2 & Hsess).
  exists s2. split; [exact Hafter|]. split; [exact Hsess|].
  rewrite (is_running_live s2 p i2 Hlive2). cbn. unfold is_running.
  rewrite Hidle2. reflexivity.
Qed.

(** C5. On a live session, for every button of the enumeration and every
    pressed state, [set_key_state] returns [None] without raising; the one
    library call it makes is [set_key_state] (no frame is advanced), the
    session keeps its handle, and in the instance the latch entry of that
    button now holds the given state while the other seven entries, the
    emulated machine, the running flag and the count of rendered frames
    are as before. *)
Theorem set_key_state_overwrites_one_button s p i (k : Key) (v : bool) :
  live s p i ->
  exists s' i',
    Environment.set_key_state (key_value k) v s = Ok VNone s' /\
    live s' p i' /\
    heap s' = <[p := i']> (heap s) /\
    _Environment__obj s' = _Environment__obj s /\
    trace s' = trace s ++ [CSetKeyState p (key_value k) v] /\
    pressed k (latch i') = v /\
    (forall k' : Key, k' <> k -> pressed k' (latch i') = pressed k' (latch i)) /\
    core i' = core i /\
    running i' = running i /\
    frames i' = frames i.
Proof.
  intros Hlive. eexists _, _.
  split; [apply (set_key_state_live s p i k v Hlive)|].
  split; [apply live_store with (e := i), live_log, Hlive|].
  split; [reflexivity|]. split; [reflexivity|]. split; [reflexivity|].
  split; [apply set_button_pressed|].
  split; [intros k' Hne; apply set_button_other, Hne|].
  repeat split; reflexivity.
Qed.

(** C7. On a live session, setting a button to a state and then setting it
    to the same state again leaves the session and the library's instances
    exactly as after the first call, and every program of operations run
    from there shows the caller the same results, frame contents, scores
    and running states included, as it shows after setting the button
    once. *)
Theorem set_key_state_twice_is_once s p i (k : Key) (v : bool) :
  live s p i ->
  exists s1 s2,
    Environment.set_key_state (key_value k) v s = Ok VNone s1 /\
    Environment.set_key_state (key_value k) v s1 = Ok VNone s2 /\
    _Environment__obj s2 = _Environment__obj s1 /\
    heap s2 = heap s1 /\
    forall prog : list op, session prog s2 = session prog s1.
Proof.
  intros Hlive.
  pose proof (set_key_state_live s p i k v Hlive) as Hone.
  pose proof (live_store _ p i (be_set_key_state i k v)
                (live_log s p i (CSetKeyState p (key_value k) v) Hlive)) as Hlive1.
  pose proof (set_key_state_live _ p _ k v Hlive1) as Htwo.
  assert (Hheap : heap (store p (be_set_key_state (be_set_key_state i k v) k v)
                    (log (CSetKeyState p (key_value k) v)
                       (store p (be_set_key_state i k v)
                          (log (CSetKeyState p (key_value k) v) s))))
                  = heap (store p (be_set_key_state i k v)
                            (log (CSetKeyState p (key_value k) v) s))).
  { cbn [heap store log be_set_key_state backend].
    unfold set_key_state. cbn [core latch running frames].
    rewrite set_button_twice. apply insert_insert_eq. }
  eexists _, _. split; [exact Hone|]. split; [exact Htwo|].
  split; [reflexivity|]. split; [exact Hheap|].
  intros prog. apply session_same_world. split; [reflexivity | exact Hheap].
Qed.
End SpecSessions.

(** ** The theorems at work on the small emulator *)

Lemma fresh_session_live : live Stub.fresh_session 1 Stub.first_instance.
Proof. split; reflexivity. Qed.

Lemma failed_construction_retains_nothing_witness :
  str_encode [110; 111] = Some [110; 111] /\
  @be_initialize Stub.inst Stub.backend [110; 111] = None /\
  exists s1 s3,
    @construct Stub.inst Stub.backend [110; 111] Stub.boot
    = Raise InitializationError s1 /\
    heap s1 = ∅ /\
    @attempts Stub.inst Stub.backend 3 [110; 111] Stub.boot = Some s3 /\
    heap s3 = ∅ /\
    trace s3 = replicate 3 (CInitialize [110; 111]).
Proof.
  split; [reflexivity|]. split; [reflexivity|].
  destruct (failed_construction_retains_nothing (be := Stub.backend)
              Stub.boot [110; 111] [110; 111] eq_refl eq_refl)
    as (s1 & s2 & Hraise & _ & Hheap & _ & _ & _ & Hmany).
  destruct (Hmany 3%nat) as (s3 & Hrun & Hheap3 & Htrace3).
  exists s1, s3. repeat split; assumption.
Defined.

Lemma get_pixels_view_witness :
  live Stub.fresh_session 1 Stub.first_instance /\
  @be_get_pixels Stub.inst Stub.backend Stub.first_instance
  = row_major (Stub.picture 0) /\
  exists a s' items,
    Environment.get_pixels Stub.fresh_session = Ok (VArray a) s' /\
    arr_count a = 23040 /\
    arr_writeable a = true /\
    @tolist Stub.inst Stub.backend a s' = Some items /\
    Z.of_nat (length items) = 23040 /\
    items !! Z.to_nat (1 * 160 + 1) = Some (to_int32 (Stub.picture 0 1 1)).
Proof.
  split; [split; reflexivity|]. split; [reflexivity|].
  destruct (get_pixels_view (be := Stub.backend) Stub.fresh_session 1
              Stub.first_instance (Stub.picture 0)
              (conj eq_refl eq_refl) eq_refl)
    as (a & s' & items & Hget & _ & _ & _ & Hcount & _ & _ & Hw & _ & _ & Hitems
        & Hlen & Hat & _).
  exists a, s', items. repeat split; try assumption.
  apply Hat; lia.
Defined.

(** Against C2 as stated: on the session made from [t.gb], which is live,
    [get_pixels] does not return a read-only array of 23040 items; the
    array it returns can be written through. *)
Lemma get_pixels_view_not_read_only :
  live Stub.fresh_session 1 Stub.first_instance /\
  ~ @read_only_view Stub.inst 23040 Stub.fresh_session.
Proof.
  split; [split; reflexivity|].
  intros (a & s' & Hget & _ & Hro).
  rewrite (get_pixels_live Stub.fresh_session 1 Stub.first_instance
             fresh_session_live) in Hget.
  injection Hget as <- _. discriminate Hro.
Qed.

Lemma step_n_times_advances_n_frames_witness :
  live Stub.fresh_session 1 Stub.first_instance /\
  (forall e' : Stub.inst,
     SpecBackend.frames (@be_run_frame Stub.inst Stub.backend e')
     = S (SpecBackend.frames e')) /\
  exists s1 s3 e3,
    @Environment.start_episode Stub.inst Stub.backend Stub.fresh_session
    = Ok VNone s1 /\
    @after Stub.inst Stub.backend (replicate 3 RunFrame) s1 = Some s3 /\
    trace s3 = trace s1 ++ replicate 3 (CRunFrame 1) /\
    live s3 1 e3 /\
    SpecBackend.frames e3 = 3%nat.
Proof.
  split; [split; reflexivity|]. split; [intros e'; reflexivity|].
  destruct (step_n_times_advances_n_frames (be := Stub.backend) 3
              SpecBackend.frames Stub.fresh_session 1 Stub.first_instance
              (conj eq_refl eq_refl) (fun e' => eq_refl))
    as (s1 & s3 & Hstart & _ & Hafter & _ & Hlive3 & Htrace & Hcount).
  exists s1, s3,
    (Nat.iter 3 (@be_run_frame Stub.inst Stub.backend)
       (fst (@be_start_episode Stub.inst Stub.backend Stub.first_instance))).
  repeat split; try assumption; try apply Hlive3.
Defined.

Lemma construction_starts_no_episode_witness :
  str_encode Stub.rom = Some Stub.rom /\
  SpecBackend.load_rom Stub.emulator Stub.rom = Some 0 /\
  exists p s1 s2,
    @construct Stub.inst Stub.backend Stub.rom Stub.boot = Ok VNone s1 /\
    size (heap s1) = 1%nat /\
    trace s1 = [CInitialize Stub.rom] /\
    @after Stub.inst Stub.backend
      [RunFrame; SetKeyState Start true; RunFrame; GetScore] s1 = Some s2 /\
    @Environment.is_running Stub.inst Stub.backend s2
    = Ok (VBool false) (log (CIsRunning p) s2).
Proof.
  split; [reflexivity|]. split; [reflexivity|].
  destruct (construction_starts_no_episode (E := Stub.emulator)
              Stub.boot Stub.rom Stub.rom 0 eq_refl eq_refl)
    as (p & s1 & Hcons & _ & _ & _ & Hsize & _ & Htrace & _ & Hidle).
  destruct (Hidle [RunFrame; SetKeyState Start true; RunFrame; GetScore])
    as (s2 & Hafter & _ & Hquery).
  { repeat (apply not_elem_of_cons; split; [discriminate|]).
    apply not_elem_of_nil. }
  exists p, s1, s2. repeat split; assumption.
Defined.

Lemma set_key_state_overwrites_one_button_witness :
  live Stub.fresh_session 1 Stub.first_instance /\
  exists s' i',
    @Environment.set_key_state Stub.inst Stub.backend (key_value Start) true
      Stub.fresh_session = Ok VNone s' /\
    live s' 1 i' /\
    SpecBackend.pressed Start (SpecBackend.latch i') = true /\
    SpecBackend.pressed Select (SpecBackend.latch i') = false /\
    SpecBackend.frames i' = O.
Proof.
  split; [split; reflexivity|].
  destruct (set_key_state_overwrites_one_button (E := Stub.emulator)
              Stub.fresh_session 1 Stub.first_instance Start true
              (conj eq_refl eq_refl))
    as (s' & i' & Hset & Hlive & _ & _ & _ & Hk & Hother & _ & _ & Hframes).
  exists s', i'. repeat split; try assumption; try apply Hlive.
  rewrite (Hother Select) by discriminate. reflexivity.
Defined.

Lemma get_score_reads_backend_state_witness :
  live Stub.fresh_session 1 Stub.first_instance /\
  exists z s',
    @Environment.get_score Stub.inst Stub.backend Stub.fresh_session
    = Ok (VInt z) s' /\
    z = 0 /\
    heap s' = heap Stub.fresh_session.
Proof.
  split; [split; reflexivity|].
  destruct (get_score_reads_backend_state (be := Stub.backend)
              Stub.fresh_session 1 Stub.first_instance (conj eq_refl eq_refl))
    as (z & s' & Hget & Hz & _ & _ & Hheap & _).
  exists z, s'. repeat split; assumption.
Defined.

Lemma set_key_state_twice_is_once_witness :
  live Stub.fresh_session 1 Stub.first_instance /\
  exists s1 s2,
    @Environment.set_key_state Stub.inst Stub.backend (key_value A) true
      Stub.fresh_session = Ok VNone s1 /\
    @Environment.set_key_state Stub.inst Stub.backend (key_value A) true s1
    = Ok VNone s2 /\
    @session Stub.inst Stub.backend [RunFrame; GetScore; GetPixels] s2
    = @session Stub.inst Stub.backend [RunFrame; GetScore; GetPixels] s1.
Proof.
  split; [split; reflexivity|].
  destruct (set_key_state_twice_is_once (E := Stub.emulator)
              Stub.fresh_session 1 Stub.first_instance A true
              (conj eq_refl eq_refl))
    as (s1 & s2 & Hone & Htwo & _ & _ & Hsame).
  exists s1, s2. repeat split; try assumption. apply Hsame.
Defined.

Lemma start_episode_discards_status_witness :
  live Stub.fresh_session 1 Stub.first_instance /\
  @Environment.start_episode Stub.inst (with_status Stub.backend (fun _ => -1))
    Stub.fresh_session
  = @Environment.start_episode Stub.inst Stub.backend Stub.fresh_session /\
  @session Stub.inst (with_status Stub.backend (fun _ => -1))
    [StartEpisode; RunFrame; GetScore] Stub.fresh_session
  = @session Stub.inst Stub.backend
      [StartEpisode; RunFrame; GetScore] Stub.fresh_session.
Proof.
  split; [split; reflexivity|].
  destruct (start_episode_discards_status Stub.backend (fun _ => -1)
              Stub.fresh_session 1 Stub.first_instance (conj eq_refl eq_refl))
    as (Hret & _ & Hsame).
  split; [|apply Hsame].
  rewrite Hret.
  rewrite (start_episode_live (be := Stub.backend) Stub.fresh_session 1
             Stub.first_instance fresh_session_live).
  reflexivity.
Defined.

Lemma get_pixels_reads_words_as_signed_witness :
  live Stub.fresh_session 1 Stub.first_instance /\
  Environment.WIDTH * Environment.HEIGHT
  <= Z.of_nat (length (@be_get_pixels Stub.inst Stub.backend Stub.first_instance)) /\
  Z.of_nat 0 < Environment.WIDTH * Environment.HEIGHT /\
  @be_get_pixels Stub.inst Stub.backend Stub.first_instance !! O
  = Some 4278190080 /\
  0 <= 4278190080 < 2 ^ 32 /\
  exists a s' items,
    Environment.get_pixels Stub.fresh_session = Ok (VArray a) s' /\
    arr_dtype a = int32 /\
    @tolist Stub.inst Stub.backend a s' = Some items /\
    items !! O = Some (-16777216).
Proof.
  assert (Hlen : Environment.WIDTH * Environment.HEIGHT
                 <= Z.of_nat (length (@be_get_pixels Stub.inst Stub.backend
                                        Stub.first_instance))).
  { apply Z.leb_le. vm_compute. reflexivity. }
  assert (Hi : Z.of_nat 0 < Environment.WIDTH * Environment.HEIGHT)
    by reflexivity.
  assert (Hu : @be_get_pixels Stub.inst Stub.backend Stub.first_instance !! O
               = Some 4278190080)
    by (vm_compute; reflexivity).
  assert (Hrange : 0 <= 4278190080 < 2 ^ 32) by (split; [discriminate | reflexivity]).
  split; [split; reflexivity|]. split; [exact Hlen|]. split; [exact Hi|].
  split; [exact Hu|]. split; [exact Hrange|].
  destruct (get_pixels_reads_words_as_signed (be := Stub.backend)
              Stub.fresh_session 1 Stub.first_instance O 4278190080
              (conj eq_refl eq_refl) Hlen Hi Hu Hrange)
    as (a & s' & items & items_u & Hget & Hdt & Hitems & _ & Hneg & _).
  exists a, s', items. repeat split; try assumption.
  apply Hneg. discriminate.
Defined.

(** * Further properties *)

(** ** Encoding the ROM path *)

Lemma utf8_code_point_None (c : Z) :
  utf8_code_point c = None <-> unencodable c.
Proof.
  unfold utf8_code_point, unencodable.
  destruct (Z.ltb_spec c 0); [split; [lia | reflexivity]|].
  destruct (Z.ltb_spec c 128); [split; [discriminate | lia]|].
  destruct (Z.ltb_spec c 2048); [split; [discriminate | lia]|].
  destruct (Z.leb_spec 55296 c), (Z.leb_spec c 57343); cbn [andb];
    try (split; [lia | reflexivity]);
    (destruct (Z.ltb_spec c 65536); [split; [discriminate | lia]|]);
    (destruct (Z.leb_spec c 1114111); [split; [discriminate | lia]|]);
    (split; [lia | reflexivity]).
Qed.

Lemma str_encode_None (s : list Z) :
  str_encode s = None <-> Exists unencodable s.
Proof.
  induction s as [|c s IH]; cbn [str_encode].
  - split; [discriminate | intros H; inversion H].
  - rewrite Exists_cons, <- IH, <- utf8_code_point_None.
    destruct (utf8_code_point c), (str_encode s); split;
      try discriminate; try tauto; intros [?|?]; discriminate.
Qed.

Lemma str_encode_ascii (s : list Z) :
  Forall (fun c => 0 <= c < 128) s -> str_encode s = Some s.
Proof.
  induction 1 as [|c s Hc _ IH]; [reflexivity|].
  cbn [str_encode]. rewrite IH. unfold utf8_code_point.
  destruct (Z.ltb_spec c 0); [lia|].
  destruct (Z.ltb_spec c 128); [|lia]. reflexivity.
Qed.

Lemma lor_upper (a b : Z) : 0 <= a -> 0 <= b -> 0 <= Z.lor a b <= a + b.
Proof.
  intros Ha Hb. split; [apply Z.lor_nonneg; auto|].
  pose proof (Z.add_lor_land a b) as Hsum.
  assert (0 <= Z.land a b) by (apply Z.land_nonneg; auto). lia.
Qed.

Lemma low_six_bits (z : Z) : 0 <= Z.land z 63 <= 63.
Proof.
  assert (Hmod : Z.land z 63 = z mod 64)
    by (change 63 with (Z.ones 6); apply Z.land_ones; lia).
  rewrite Hmod. pose proof (Z.mod_pos_bound z 64). lia.
Qed.

Lemma continuation_byte (z : Z) : 128 <= Z.lor 128 (Z.land z 63) < 192.
Proof.
  pose proof (low_six_bits z) as Hlow.
  pose proof (lor_upper 128 (Z.land z 63)) as Hup.
  assert (Z.lor 128 (Z.land z 63) <> 0)
    by (rewrite Z.lor_eq_0_iff; intros [Hz _]; discriminate).
  assert (Hge : 128 <= Z.lor 128 (Z.land z 63)).
  { destruct (Z.lt_ge_cases (Z.lor 128 (Z.land z 63)) 128) as [Hlt|]; [|lia].
    exfalso.
    assert (Hbit : Z.testbit (Z.lor 128 (Z.land z 63)) 7 = true)
      by (rewrite Z.lor_spec; reflexivity).
    assert (Hnone : Z.testbit (Z.lor 128 (Z.land z 63)) 7 = false).
    { apply (Z.bits_above_log2 _ 7); [lia|].
      destruct (Z.eq_dec (Z.lor 128 (Z.land z 63)) 0) as [Hz|Hz]; [contradiction|].
      apply Z.log2_lt_pow2; [lia|]. change (2 ^ 7) with 128. lia. }
    congruence. }
  lia.
Qed.

(** A leading byte [hi | x] for a small payload [x] stays within the
    byte and is not zero. *)
Lemma leading_byte (hi x bound : Z) :
  0 < hi -> 0 <= x <= bound -> hi + bound < 256 ->
  0 < Z.lor hi x < 256.
Proof.
  intros Hhi Hx Hb.
  pose proof (lor_upper hi x) as Hup.
  assert (Z.lor hi x <> 0) by (rewrite Z.lor_eq_0_iff; lia).
  lia.
Qed.

Lemma shiftr_bound (c k lim : Z) :
  0 <= k -> 0 <= c < lim * 2 ^ k -> 0 <= Z.shiftr c k <= lim - 1.
Proof.
  intros Hk Hc. rewrite Z.shiftr_div_pow2 by lia.
  assert (0 < 2 ^ k) by (apply Z.pow_pos_nonneg; lia).
  split; [apply Z.div_pos; lia|].
  assert (c / 2 ^ k < lim); [|lia].
  apply Z.div_lt_upper_bound; lia.
Qed.

(** What the codec emits for one code point: bytes, none of them zero
    unless the code point is U+0000, and between one and four of them. *)
Lemma utf8_code_point_bytes (c : Z) (bs : list Z) :
  utf8_code_point c = Some bs ->
  Forall (fun b => 0 <= b < 256) bs /\
  (0 ∈ bs <-> c = 0) /\
  (1 <= length bs <= 4)%nat.
Proof.
  unfold utf8_code_point.
  destruct (Z.ltb_spec c 0); [discriminate|].
  destruct (Z.ltb_spec c 128).
  { intros [= <-]. split; [repeat constructor; lia|].
    split; [|cbn; lia]. rewrite list_elem_of_singleton. split; auto. }
  assert (Hcont : forall z, 0 <= Z.lor 128 (Z.land z 63) < 256
                            /\ 0 <> Z.lor 128 (Z.land z 63))
    by (intros z; pose proof (continuation_byte z); lia).
  destruct (Z.ltb_spec c 2048).
  { intros [= <-].
    pose proof (shiftr_bound c 6 32 ltac:(lia) ltac:(lia)) as Hs.
    pose proof (leading_byte 192 (Z.shiftr c 6) 31 ltac:(lia) ltac:(lia) ltac:(lia)).
    split; [repeat constructor; try lia; apply Hcont|].
    split; [|cbn; lia].
    rewrite !elem_of_cons, elem_of_nil.
    pose proof (Hcont c). split; [intros [?|[?|[]]]; lia | lia]. }
  destruct ((55296 <=? c) && (c <=? 57343)); [discriminate|].
  destruct (Z.ltb_spec c 65536).
  { intros [= <-].
    pose proof (shiftr_bound c 12 16 ltac:(lia) ltac:(lia)) as Hs.
    pose proof (leading_byte 224 (Z.shiftr c 12) 15 ltac:(lia) ltac:(lia) ltac:(lia)).
    split; [repeat constructor; try lia; apply Hcont|].
    split; [|cbn; lia].
    rewrite !elem_of_cons, elem_of_nil.
    pose proof (Hcont c). pose proof (Hcont (Z.shiftr c 6)).
    split; [intros [?|[?|[?|[]]]]; lia | lia]. }
  destruct (Z.leb_spec c 1114111); [|discriminate].
  intros [= <-].
  pose proof (shiftr_bound c 18 5 ltac:(lia) ltac:(lia)) as Hs.
  pose proof (leading_byte 240 (Z.shiftr c 18) 4 ltac:(lia) ltac:(lia) ltac:(lia)).
  split; [repeat constructor; try lia; apply Hcont|].
  split; [|cbn; lia].
  rewrite !elem_of_cons, elem_of_nil.
  pose proof (Hcont c). pose proof (Hcont (Z.shiftr c 6)).
  pose proof (Hcont (Z.shiftr c 12)).
  split; [intros [?|[?|[?|[?|[]]]]]; lia | lia].
Qed.

Lemma str_encode_bytes (s bs : list Z) :
  str_encode s = Some bs ->
  Forall (fun b => 0 <= b < 256) bs /\
  (0 ∈ bs <-> 0 ∈ s) /\
  (length s <= length bs <= 4 * length s)%nat.
Proof.
  revert bs. induction s as [|c s IH]; intros bs; cbn [str_encode].
  - intros [= <-]. split; [constructor|]. split; [reflexivity | cbn; lia].
  - destruct (utf8_code_point c) as [cs|] eqn:Hc; [|discriminate].
    destruct (str_encode s) as [rest|]; [|discriminate].
    intros [= <-].
    destruct (utf8_code_point_bytes c cs Hc) as (Hrange & Hzero & Hlen).
    destruct (IH rest eq_refl) as (Hrange' & Hzero' & Hlen').
    split; [apply Forall_app; auto|]. split.
    + rewrite elem_of_app, elem_of_cons, Hzero, Hzero'.
      split; intros [?|?]; auto.
    + rewrite length_app. cbn [length]. lia.
Qed.

Section ConstructionEdges.
Context {inst : Type} {be : Backend inst}.
Implicit Types (s : state inst) (p : N) (e : inst).

(** X1. A ROM path with a code point the UTF-8 codec refuses (a
    surrogate, or one outside 0..0x10FFFF) makes [Environment(rom_path)]
    raise [UnicodeEncodeError] before the library is called and before
    [__obj] is bound; [__del__] on that object then raises
    [AttributeError], again without a library call, so the attempt as a
    whole leaves the library and its log untouched. *)
Theorem unencodable_path_never_reaches_library s0 (rom_path : list Z) :
  Exists unencodable rom_path ->
  construct rom_path s0 = Raise UnicodeEncodeError (new_object s0) /\
  _Environment__obj (new_object s0) = None /\
  Environment.__del__ (new_object s0) = Raise AttributeError (new_object s0) /\
  attempt rom_path s0 = Some (new_object s0) /\
  heap (new_object s0) = heap s0 /\
  trace (new_object s0) = trace s0.
Proof.
  intros Hbad. apply str_encode_None in Hbad.
  assert (Hcons : construct rom_path s0 = Raise UnicodeEncodeError (new_object s0)).
  { unfold construct, Environment.__init__. rewrite Hbad. reflexivity. }
  split; [exact Hcons|]. split; [reflexivity|]. split; [reflexivity|].
  split; [|split; reflexivity].
  unfold attempt. rewrite Hcons. reflexivity.
Qed.

(** X2. For a ROM path the codec accepts, [Environment(rom_path)] makes
    exactly one library call, [initialize_environment] on the encoded
    bytes, and either returns or raises the initialization exception;
    [UnicodeEncodeError] is not raised.  The bytes handed over are all in
    0..255, there are at least as many of them as code points and at most
    four times as many, one of them is zero exactly when the path has a
    U+0000 in it (where a C string would end), and a path of ASCII
    characters is handed over as it is. *)
Theorem library_receives_encoded_path s0 (rom_path bytes : list Z) :
  str_encode rom_path = Some bytes ->
  (exists s1,
     (construct rom_path s0 = Ok VNone s1 \/
      construct rom_path s0 = Raise InitializationError s1) /\
     trace s1 = trace s0 ++ [CInitialize bytes]) /\
  Forall (fun b => 0 <= b < 256) bytes /\
  (0 ∈ bytes <-> 0 ∈ rom_path) /\
  (length rom_path <= length bytes <= 4 * length rom_path)%nat /\
  (Forall (fun c => 0 <= c < 128) rom_path -> bytes = rom_path).
Proof.
  intros Henc.
  destruct (str_encode_bytes rom_path bytes Henc) as (Hrange & Hzero & Hlen).
  split; [|split; [exact Hrange|split; [exact Hzero|split; [exact Hlen|]]]].
  - destruct (be_initialize bytes) as [e|] eqn:Hinit.
    + destruct (construct_valid s0 rom_path bytes e Henc Hinit)
        as (p & _ & _ & Hcons).
      eexists. split; [left; exact Hcons | reflexivity].
    + eexists. split; [right; apply (construct_null s0 _ _ Henc Hinit)|].
      reflexivity.
  - intros Hascii. rewrite (str_encode_ascii rom_path Hascii) in Henc.
    congruence.
Qed.

Lemma del_live s p e :
  live s p e -> p <> 0%N ->
  Environment.__del__ s
  = Ok VNone (mkState (Some PyNone) (delete p (heap s)) (trace s ++ [CDestroy p])).
Proof.
  intros [Ho Hh] Hp.
  unfold Environment.__del__, bind, get_obj. rewrite Ho.
  cbn [pyval_eqb ffi.NULL]. destruct (N.eqb_spec p 0); [contradiction|].
  cbn [negb]. unfold lib.destroy_environment, deref. rewrite Hh. reflexivity.
Qed.

Lemma del_after_del (h : gmap N inst) (t : list call) :
  Environment.__del__ (mkState (Some PyNone) h t)
  = Raise TypeError (mkState (Some PyNone) h t).
Proof. reflexivity. Qed.

(** X3. [__del__] on a live session with a non-null handle calls
    [destroy_environment] once, on that handle, which releases exactly
    that instance, and then rebinds [__obj] to [None].  A second [__del__]
    finds [None], which is not [ffi.NULL], so it passes [None] to
    [destroy_environment]: cffi refuses it with [TypeError], the library
    is not called again and nothing changes. *)
Theorem del_destroys_once s p e :
  live s p e -> p <> 0%N ->
  exists s',
    Environment.__del__ s = Ok VNone s' /\
    _Environment__obj s' = Some PyNone /\
    heap s' = delete p (heap s) /\
    heap s' !! p = None /\
    (forall q, q <> p -> heap s' !! q = heap s !! q) /\
    trace s' = trace s ++ [CDestroy p] /\
    Environment.__del__ s' = Raise TypeError s'.
Proof.
  intros Hlive Hp. eexists. split; [apply (del_live s p e Hlive Hp)|].
  split; [reflexivity|]. split; [reflexivity|].
  split; [apply lookup_delete_eq|].
  split; [intros q Hq; apply lookup_delete_ne; congruence|].
  split; [reflexivity | apply del_after_del].
Qed.

Lemma perform_after_del (o : op) (h : gmap N inst) (t : list call) :
  perform o (mkState (Some PyNone) h t)
  = Raise TypeError (mkState (Some PyNone) h t).
Proof. destruct o; reflexivity. Qed.

Lemma session_after_del (prog : list op) (h : gmap N inst) (t : list call) :
  session prog (mkState (Some PyNone) h t)
  = replicate (length prog) (Raised TypeError) /\
  after prog (mkState (Some PyNone) h t) = Some (mkState (Some PyNone) h t).
Proof.
  induction prog as [|o prog [IHs IHa]]; [split; reflexivity|].
  cbn [session after length replicate]. rewrite perform_after_del.
  cbn [observe]. rewrite IHs, IHa. split; reflexivity.
Qed.

(** X4. Once [__del__] has run on a live session, every operation of the
    class raises [TypeError] at the cffi boundary: whatever program of
    operations follows, each one raises, none reaches the library (its
    log and its instances stay as [__del__] left them), so the released
    handle is never used again. *)
Theorem operations_after_del_raise s p e (prog : list op) :
  live s p e -> p <> 0%N ->
  exists s',
    Environment.__del__ s = Ok VNone s' /\
    session prog s' = replicate (length prog) (Raised TypeError) /\
    after prog s' = Some s'.
Proof.
  intros Hlive Hp. eexists. split; [apply (del_live s p e Hlive Hp)|].
  apply session_after_del.
Qed.

Lemma attempt_valid s0 rom_path bytes e :
  str_encode rom_path = Some bytes ->
  be_initialize bytes = Some e ->
  exists p,
    p = fresh ({[0%N]} ∪ dom (heap s0)) /\
    attempt rom_path s0
    = Some (mkState (Some PyNone) (heap s0)
              (trace s0 ++ [CInitialize bytes; CDestroy p])).
Proof.
  intros Henc Hinit.
  pose proof (is_fresh ({[0%N]} ∪ dom (heap s0))) as Hfresh.
  set (p := fresh ({[0%N]} ∪ dom (heap s0))) in *.
  assert (Hp : p <> 0%N) by set_solver.
  assert (Hfree : heap s0 !! p = None) by (apply not_elem_of_dom; set_solver).
  exists p. split; [reflexivity|].
  assert (Hcons : construct rom_path s0
                  = Ok VNone (mkState (Some (CData p)) (<[p := e]> (heap s0))
                                (trace s0 ++ [CInitialize bytes]))).
  { unfold construct, Environment.__init__. rewrite Henc.
    unfold bind, lib.initialize_environment. rewrite Hinit.
    cbn [log heap new_object]. fold p. cbn.
    destruct (N.eqb_spec p 0); [contradiction|]. reflexivity. }
  unfold attempt. rewrite Hcons. unfold reclaim.
  assert (Hlive : live (mkState (Some (CData p)) (<[p := e]> (heap s0))
                          (trace s0 ++ [CInitialize bytes])) p e)
    by (split; [reflexivity | apply lookup_insert_eq]).
  rewrite (del_live _ p e Hlive Hp).
  cbn [heap trace]. rewrite delete_insert_id by exact Hfree.
  rewrite <- app_assoc. reflexivity.
Qed.

(** X5. Constructing a session on a ROM the library accepts and dropping
    it again gives back what was taken: the library holds the same
    instances as before, having been called twice, to initialize and to
    destroy the one instance; and so it is after any number of such
    rounds, each of which reuses the same handle. *)
Theorem construct_and_drop_leaks_nothing (n : nat) s0 rom_path bytes e :
  str_encode rom_path = Some bytes ->
  be_initialize bytes = Some e ->
  exists p sn,
    p <> 0%N /\
    heap s0 !! p = None /\
    attempts n rom_path s0 = Some sn /\
    heap sn = heap s0 /\
    trace sn
    = trace s0 ++ mjoin (replicate n [CInitialize bytes; CDestroy p]).
Proof.
  intros Henc Hinit.
  pose proof (is_fresh ({[0%N]} ∪ dom (heap s0))) as Hfresh.
  exists (fresh ({[0%N]} ∪ dom (heap s0))).
  assert (Hrun : forall s, heap s = heap s0 ->
            exists sn, attempts n rom_path s = Some sn /\ heap sn = heap s0 /\
              trace sn = trace s ++ mjoin (replicate n
                [CInitialize bytes; CDestroy (fresh ({[0%N]} ∪ dom (heap s0)))])).
  { induction n as [|n IH]; intros s Hs.
    - exists s. cbn. rewrite app_nil_r. auto.
    - destruct (attempt_valid s rom_path bytes e Henc Hinit) as (p & Hp & Hatt).
      rewrite Hs in Hp. subst p.
      cbn [attempts]. rewrite Hatt.
      destruct (IH (mkState (Some PyNone) (heap s)
                      (trace s ++ [CInitialize bytes;
                         CDestroy (fresh ({[0%N]} ∪ dom (heap s0)))])) Hs)
        as (sn & Hsn & Hheap & Htrace).
      exists sn. split; [exact Hsn|]. split; [exact Hheap|].
      rewrite Htrace. cbn [trace replicate]. rewrite <- app_assoc. reflexivity. }
  destruct (Hrun s0 eq_refl) as (sn & Hsn & Hheap & Htrace).
  exists sn. split; [set_solver|].
  split; [apply not_elem_of_dom; set_solver|]. auto.
Qed.
End ConstructionEdges.

(** ** Programs on a live session *)

Section LiveSessions.
Context {inst : Type} {be : Backend inst}.
Implicit Types (s : state inst) (p : N) (e : inst).

(** One operation on a live session: it returns, the session stays live
    on the same handle, no other instance is touched, and the one library
    call made is a call on that handle which neither creates nor destroys
    an instance.  An operation on a [const Environment *] changes nothing
    but the log. *)
Lemma perform_live (o : op) s p e :
  live s p e ->
  exists v s1 e1 c,
    perform o s = Ok v s1 /\
    live s1 p e1 /\
    (forall q, q <> p -> heap s1 !! q = heap s !! q) /\
    trace s1 = trace s ++ [c] /\
    call_handle c = Some p /\
    lifecycle_call c = false /\
    (const_query o = true -> same_world s1 s).
Proof.
  intros Hlive.
  assert (Hother : forall e' c (q : N), q <> p ->
            heap (store p e' (log c s)) !! q = heap s !! q)
    by (intros e' c q Hq; apply lookup_insert_ne; congruence).
  destruct o as [| | |k v| |]; cbn [perform const_query].
  - eexists _, _, _, _. split; [apply (start_episode_live s p e Hlive)|].
    split; [apply live_store with (e := e), live_log, Hlive|].
    split; [apply Hother|]. repeat split; try reflexivity. discriminate.
  - eexists _, _, _, _. split; [apply (run_frame_live s p e Hlive)|].
    split; [apply live_store with (e := e), live_log, Hlive|].
    split; [apply Hother|]. repeat split; try reflexivity. discriminate.
  - eexists _, _, _, _. split; [apply (is_running_live s p e Hlive)|].
    split; [apply live_log, Hlive|].
    repeat split; reflexivity.
  - eexists _, _, _, _. split; [apply (set_key_state_live s p e k v Hlive)|].
    split; [apply live_store with (e := e), live_log, Hlive|].
    split; [apply Hother|]. repeat split; try reflexivity. discriminate.
  - eexists _, _, _, _. split; [apply (get_score_live s p e Hlive)|].
    split; [apply live_log, Hlive|].
    repeat split; reflexivity.
  - eexists _, _, _, _. split; [apply (get_pixels_live s p e Hlive)|].
    split; [apply live_log, Hlive|].
    repeat split; reflexivity.
Qed.

Lemma observe_Ok_returned (v : value) s : returned (observe (Ok v s)) = true.
Proof. destruct v; reflexivity. Qed.

(** X6. On a live session no program of the six operations fails: every
    operation returns (none raises, none crashes), the session is still
    live on the same handle afterwards, no instance other than its own has
    changed, and the library was called exactly once per operation, always
    on the session's handle and never to create or destroy an instance. *)
Theorem programs_keep_session_live (prog : list op) s p e :
  live s p e ->
  exists s' e' calls,
    after prog s = Some s' /\
    live s' p e' /\
    (forall q, q <> p -> heap s' !! q = heap s !! q) /\
    length (session prog s) = length prog /\
    Forall (fun o => returned o = true) (session prog s) /\
    trace s' = trace s ++ calls /\
    length calls = length prog /\
    Forall (fun c => call_handle c = Some p /\ lifecycle_call c = false) calls.
Proof.
  revert s e. induction prog as [|o prog IH]; intros s e Hlive.
  - exists s, e, []. cbn [after session length]. rewrite app_nil_r.
    split; [reflexivity|]. split; [exact Hlive|]. split; [reflexivity|].
    split; [reflexivity|]. split; [constructor|]. split; [reflexivity|].
    split; [reflexivity | constructor].
  - destruct (perform_live o s p e Hlive)
      as (v & s1 & e1 & c & Hperf & Hlive1 & Hother1 & Htrace1 & Hc & Hlc & _).
    destruct (IH s1 e1 Hlive1)
      as (s' & e' & calls & Hafter & Hlive' & Hother & Hlen & Hret & Htrace
          & Hcalls & Hall).
    exists s', e', (c :: calls). cbn [after session]. rewrite Hperf.
    split; [exact Hafter|]. split; [exact Hlive'|].
    split; [intros q Hq; rewrite (Hother q Hq); apply Hother1, Hq|].
    split; [cbn [length]; congruence|].
    split; [constructor; [apply observe_Ok_returned | exact Hret]|].
    split; [rewrite Htrace, Htrace1, <- app_assoc; reflexivity|].
    split; [cbn [length]; congruence|].
    constructor; auto.
Qed.

(** X7. The running-state and score queries are invisible to the rest of
    a program on a live session: what the other operations return, pixel
    contents included, is what they return when the queries are removed
    from the program. *)
Theorem const_queries_do_not_disturb (prog : list op) s p e :
  live s p e ->
  shown_without_queries prog (session prog s)
  = session (filter (fun o => const_query o = false) prog) s.
Proof.
  revert s e. induction prog as [|o prog IH]; intros s e Hlive; [reflexivity|].
  destruct (perform_live o s p e Hlive)
    as (v & s1 & e1 & c & Hperf & Hlive1 & _ & _ & _ & _ & Hconst).
  cbn [session shown_without_queries]. rewrite Hperf.
  destruct (const_query o) eqn:Hq.
  - rewrite filter_cons_False by (rewrite Hq; discriminate).
    rewrite (IH s1 e1 Hlive1). apply session_same_world, Hconst, eq_refl.
  - rewrite filter_cons_True by exact Hq.
    cbn [session]. rewrite Hperf. f_equal. apply (IH s1 e1 Hlive1).
Qed.

(** X8. The array [get_pixels] returns does not own its data: once
    [__del__] has released the instance, the same array no longer reads
    (it would read freed memory), while before that it read 23040
    items. *)
Theorem pixel_array_dangles_after_del s p e :
  live s p e -> p <> 0%N ->
  Environment.WIDTH * Environment.HEIGHT <= Z.of_nat (length (be_get_pixels e)) ->
  exists a s1 s2 items,
    Environment.get_pixels s = Ok (VArray a) s1 /\
    tolist a s1 = Some items /\
    Z.of_nat (length items) = 23040 /\
    Environment.__del__ s1 = Ok VNone s2 /\
    tolist a s2 = None.
Proof.
  intros Hlive Hp Hlen.
  pose proof (live_log s p e (CGetPixels p) Hlive) as Hlive1.
  eexists _, _, _, _.
  split; [apply (get_pixels_live s p e Hlive)|].
  split; [apply (tolist_pixels int32 true _ p e); [apply Hlive1 | exact Hlen]|].
  split.
  { rewrite length_fmap, length_take.
    unfold Environment.WIDTH, Environment.HEIGHT in Hlen. lia. }
  split; [apply (del_live _ p e Hlive1 Hp)|].
  unfold tolist, buffer_read. cbn [arr_base buf_ptr owner heap].
  rewrite lookup_delete_eq. reflexivity.
Qed.

(** X9. Nothing is lost by the signed item type: reducing each item
    [get_pixels] shows modulo 2^32 gives what the same memory shows when
    read as [uint32], which is the backend's words themselves when they
    are 32-bit values. *)
Theorem unsigned_pixels_are_recoverable s p e :
  live s p e ->
  Environment.WIDTH * Environment.HEIGHT <= Z.of_nat (length (be_get_pixels e)) ->
  exists a s' items,
    Environment.get_pixels s = Ok (VArray a) s' /\
    tolist a s' = Some items /\
    tolist (mkArray (arr_base a) uint32 (arr_count a) (arr_writeable a)) s'
    = Some (to_uint32 <$> items) /\
    (Forall (fun u => 0 <= u < 2 ^ 32) (be_get_pixels e) ->
     to_uint32 <$> items = take (Z.to_nat 23040) (be_get_pixels e)).
Proof.
  intros Hlive Hlen.
  pose proof (live_log s p e (CGetPixels p) Hlive) as [_ Hh].
  assert (Hwrap : forall us : list Z,
            to_uint32 <$> (read_word int32 <$> us) = to_uint32 <$> us).
  { intros us. rewrite <- list_fmap_compose. apply list_fmap_ext.
    intros _ u _. cbn [compose read_word]. unfold to_uint32, to_int32.
    rewrite <- Zminus_mod_idemp_l, Z.mod_mod by lia.
    rewrite Zminus_mod_idemp_l. f_equal. lia. }
  eexists _, _, _.
  split; [apply (get_pixels_live s p e Hlive)|].
  split; [apply (tolist_pixels int32 true _ p e Hh Hlen)|].
  split.
  - cbn [arr_base arr_count arr_writeable].
    rewrite (tolist_pixels uint32 true _ p e Hh Hlen), Hwrap. reflexivity.
  - intros Hrange. rewrite Hwrap.
    apply list_eq. intros i. rewrite list_lookup_fmap.
    destruct (take (Z.to_nat 23040) (be_get_pixels e) !! i) as [u|] eqn:Hu;
      [|reflexivity].
    cbn. f_equal. unfold to_uint32. apply Z.mod_small.
    apply list_elem_of_lookup_2, elem_of_take in Hu.
    destruct Hu as (j & Hj & _).
    rewrite Forall_forall in Hrange.
    apply Hrange, (list_elem_of_lookup_2 _ j), Hj.
Qed.
End LiveSessions.

(** ** The demo *)

Section DemoFacts.
Context {inst : Type} {be : Backend inst}.
Implicit Types (s : state inst) (p : N) (e : inst).

Lemma while_running_step (fuel : nat) (frames : Z) s p e :
  live s p e ->
  be_is_running e = true ->
  while_running (S fuel) frames s
  = while_running fuel (frames + 1)
      (store p (be_run_frame e) (log (CRunFrame p) (log (CIsRunning p) s))).
Proof.
  intros Hlive Hrun. cbn [while_running]. unfold bind at 1.
  rewrite (is_running_live s p e Hlive), Hrun. cbn [truthy].
  unfold bind.
  rewrite (run_frame_live _ p e (live_log s p e (CIsRunning p) Hlive)).
  reflexivity.
Qed.

Lemma while_running_stop (fuel : nat) (frames : Z) s p e :
  live s p e ->
  be_is_running e = false ->
  while_running (S fuel) frames s = Ok (Some frames) (log (CIsRunning p) s).
Proof.
  intros Hlive Hrun. cbn [while_running]. unfold bind.
  rewrite (is_running_live s p e Hlive), Hrun. reflexivity.
Qed.

(** The loop, entered on a live session whose backend reports running for
    the states after 0, 1, ..., [n - 1] frames and not running after [n]. *)
Lemma while_running_counts (n : nat) :
  forall (fuel : nat) (frames : Z) s p e,
    live s p e ->
    (forall i : nat, (i < n)%nat ->
       be_is_running (Nat.iter i be_run_frame e) = true) ->
    be_is_running (Nat.iter n be_run_frame e) = false ->
    (n < fuel)%nat ->
    exists s',
      while_running fuel frames s = Ok (Some (frames + Z.of_nat n)) s' /\
      live s' p (Nat.iter n be_run_frame e) /\
      trace s'
      = trace s ++ mjoin (replicate n [CIsRunning p; CRunFrame p])
          ++ [CIsRunning p].
Proof.
  induction n as [|n IH]; intros fuel frames s p e Hlive Hon Hoff Hfuel.
  - destruct fuel as [|fuel]; [lia|].
    eexists. rewrite (while_running_stop fuel frames s p e Hlive Hoff).
    split; [rewrite Z.add_0_r; reflexivity|].
    split; [apply live_log, Hlive | reflexivity].
  - destruct fuel as [|fuel]; [lia|].
    rewrite (while_running_step fuel frames s p e Hlive (Hon O ltac:(lia))).
    destruct (IH fuel (frames + 1) _ p (be_run_frame e)
                (live_store _ p e _
                   (live_log _ p e (CRunFrame p)
                      (live_log s p e (CIsRunning p) Hlive))))
      as (s' & Hloop & Hlive' & Htrace).
    + intros i Hi. rewrite <- Nat.iter_succ_r. apply Hon. lia.
    + rewrite <- Nat.iter_succ_r. exact Hoff.
    + lia.
    + exists s'. rewrite Hloop.
      split; [f_equal; f_equal; lia|].
      split; [rewrite Nat.iter_succ_r; exact Hlive'|].
      rewrite Htrace. cbn [trace store log replicate].
      change (mjoin ([CIsRunning p; CRunFrame p]
                       :: replicate n [CIsRunning p; CRunFrame p]))
        with ([CIsRunning p; CRunFrame p]
                ++ mjoin (replicate n [CIsRunning p; CRunFrame p])).
      rewrite <- !app_assoc. reflexivity.
Qed.

Lemma while_running_forever (fuel : nat) :
  forall (frames : Z) s p e,
    live s p e ->
    (forall i : nat, be_is_running (Nat.iter i be_run_frame e) = true) ->
    exists s',
      while_running fuel frames s = Ok None s' /\
      live s' p (Nat.iter fuel be_run_frame e).
Proof.
  induction fuel as [|fuel IH]; intros frames s p e Hlive Hon.
  - exists s. split; [reflexivity | exact Hlive].
  - rewrite (while_running_step fuel frames s p e Hlive (Hon O)).
    destruct (IH (frames + 1) _ p (be_run_frame e)
                (live_store _ p e _
                   (live_log _ p e (CRunFrame p)
                      (live_log s p e (CIsRunning p) Hlive))))
      as (s' & Hloop & Hlive').
    + intros i. rewrite <- Nat.iter_succ_r. apply Hon.
    + exists s'. split; [exact Hloop|].
      rewrite Nat.iter_succ_r. exact Hlive'.
Qed.

Lemma demo_rom_path_encodes : str_encode demo_rom_path = Some demo_rom_path.
Proof. vm_compute. reflexivity. Qed.

(** X10. The demo counts frames correctly.  When the library loads the
    demo's ROM and, after [start_episode], reports running for the states
    after 0 to [n - 1] frame advances and not running after [n], the demo
    ends with [frames] equal to [n] (for any bound on the turns of the loop
    above [n]): it has advanced the instance by exactly [n] frames, and
    the library calls it made are [initialize_environment],
    [start_episode], then [n] times [is_running] and [run_frame], and a
    last [is_running].  It never destroys the instance. *)
Theorem main_counts_frames (n fuel : nat) s0 e :
  be_initialize demo_rom_path = Some e ->
  (forall i : nat, (i < n)%nat ->
     be_is_running (Nat.iter i be_run_frame (fst (be_start_episode e))) = true) ->
  be_is_running (Nat.iter n be_run_frame (fst (be_start_episode e))) = false ->
  (n < fuel)%nat ->
  exists p s',
    main fuel s0 = Ok (Some (Z.of_nat n)) s' /\
    live s' p (Nat.iter n be_run_frame (fst (be_start_episode e))) /\
    trace s'
    = trace s0 ++ [CInitialize demo_rom_path; CStartEpisode p]
        ++ mjoin (replicate n [CIsRunning p; CRunFrame p])
        ++ [CIsRunning p].
Proof.
  intros Hinit Hon Hoff Hfuel.
  destruct (construct_valid s0 demo_rom_path demo_rom_path e
              demo_rom_path_encodes Hinit) as (p & _ & _ & Hcons).
  assert (Hlive : live (mkState (Some (CData p)) (<[p := e]> (heap s0))
                          (trace s0 ++ [CInitialize demo_rom_path])) p e)
    by (split; [reflexivity | apply lookup_insert_eq]).
  destruct (while_running_counts n fuel 0 _ p _
              (live_store _ p e (fst (be_start_episode e))
                 (live_log _ p e (CStartEpisode p) Hlive))
              Hon Hoff Hfuel)
    as (s' & Hloop & Hlive' & Htrace).
  exists p, s'. split; [|split; [exact Hlive'|]].
  - unfold main, benchmark, bind. rewrite Hcons.
    rewrite (start_episode_live _ p e Hlive). exact Hloop.
  - rewrite Htrace. cbn [trace store log]. rewrite <- !app_assoc. reflexivity.
Qed.

(** X11. The benchmark loop has no bound of its own: on a live session
    whose backend reports running after every number of frame advances,
    the loop is still going after any number of turns, having advanced one
    frame per turn. *)
Theorem benchmark_runs_while_backend_runs (fuel : nat) s p e :
  live s p e ->
  (forall i : nat,
     be_is_running (Nat.iter i be_run_frame (fst (be_start_episode e))) = true) ->
  exists s',
    benchmark fuel s = Ok None s' /\
    live s' p (Nat.iter fuel be_run_frame (fst (be_start_episode e))).
Proof.
  intros Hlive Hon. unfold benchmark, bind.
  rewrite (start_episode_live s p e Hlive).
  apply while_running_forever; [|exact Hon].
  apply live_store with (e := e), live_log, Hlive.
Qed.

(** X12. When the library cannot load the demo's ROM, the demo ends at
    its first line with the initialization exception: the library was
    called once, no episode was started and no frame advanced. *)
Theorem main_stops_without_rom (fuel : nat) s0 :
  be_initialize demo_rom_path = None ->
  main fuel s0
  = Raise InitializationError
      (mkState (Some ffi.NULL) (heap s0)
         (trace s0 ++ [CInitialize demo_rom_path])).
Proof.
  intros Hnull. unfold main, bind.
  rewrite (construct_null s0 demo_rom_path demo_rom_path
             demo_rom_path_encodes Hnull).
  reflexivity.
Qed.
End DemoFacts.

Section RepeatedPixels.
Context {inst : Type} {be : Backend inst}.
Implicit Types (s : state inst) (p : N) (e : inst).

(** X13. Taking the pixels is repeatable and leaves no mark: on a live
    session a second [get_pixels] returns an array equal to the first,
    over the same memory, and both read the same items as long as no other
    operation comes between; and any program of operations shows the same
    after a [get_pixels] as without it. *)
Theorem get_pixels_is_repeatable s p e :
  live s p e ->
  exists a s1 s2,
    Environment.get_pixels s = Ok (VArray a) s1 /\
    Environment.get_pixels s1 = Ok (VArray a) s2 /\
    tolist a s2 = tolist a s1 /\
    forall prog : list op, session prog s1 = session prog s.
Proof.
  intros Hlive.
  pose proof (live_log s p e (CGetPixels p) Hlive) as Hlive1.
  eexists _, _, _.
  split; [apply (get_pixels_live s p e Hlive)|].
  split; [apply (get_pixels_live _ p e Hlive1)|].
  split; [apply tolist_same_world; split; reflexivity|].
  intros prog. apply session_same_world. split; reflexivity.
Qed.
End RepeatedPixels.


(** ** The further properties at work *)

Lemma unencodable_path_never_reaches_library_witness :
  Exists unencodable [47; 55296] /\
  @attempt Stub.inst Stub.backend [47; 55296] Stub.boot = Some Stub.boot.
Proof.
  assert (Hbad : Exists unencodable [47; 55296])
    by (apply Exists_cons_tl, Exists_cons_hd; unfold unencodable; lia).
  split; [exact Hbad|].
  destruct (unencodable_path_never_reaches_library (be := Stub.backend)
              Stub.boot [47; 55296] Hbad) as (_ & _ & _ & Hatt & _).
  exact Hatt.
Defined.

Lemma library_receives_encoded_path_witness :
  str_encode [116; 233] = Some [116; 195; 169] /\
  exists s1,
    @construct Stub.inst Stub.backend [116; 233] Stub.boot
    = Raise InitializationError s1 /\
    trace s1 = [CInitialize [116; 195; 169]].
Proof.
  split; [reflexivity|].
  destruct (library_receives_encoded_path (be := Stub.backend)
              Stub.boot [116; 233] [116; 195; 169] eq_refl)
    as ((s1 & [Hok|Hraise] & Htrace) & _).
  - exfalso.
    rewrite (construct_null (be := Stub.backend) Stub.boot [116; 233]
               [116; 195; 169] eq_refl eq_refl) in Hok.
    discriminate Hok.
  - exists s1. split; [exact Hraise | exact Htrace].
Defined.

Lemma del_destroys_once_witness :
  live Stub.fresh_session 1 Stub.first_instance /\
  1%N <> 0%N /\
  exists s',
    @Environment.__del__ Stub.inst Stub.fresh_session = Ok VNone s' /\
    heap s' = ∅ /\
    @Environment.__del__ Stub.inst s' = Raise TypeError s'.
Proof.
  split; [split; reflexivity|]. split; [discriminate|].
  destruct (del_destroys_once Stub.fresh_session 1
              Stub.first_instance (conj eq_refl eq_refl) ltac:(discriminate))
    as (s' & Hdel & _ & Hheap & _ & _ & _ & Hagain).
  exists s'. split; [exact Hdel|]. split; [|exact Hagain].
  rewrite Hheap. reflexivity.
Defined.

Lemma operations_after_del_raise_witness :
  live Stub.fresh_session 1 Stub.first_instance /\
  1%N <> 0%N /\
  exists s',
    @Environment.__del__ Stub.inst Stub.fresh_session = Ok VNone s' /\
    @session Stub.inst Stub.backend [RunFrame; GetPixels] s'
    = [Raised TypeError; Raised TypeError].
Proof.
  split; [split; reflexivity|]. split; [discriminate|].
  destruct (operations_after_del_raise (be := Stub.backend)
              Stub.fresh_session 1 Stub.first_instance [RunFrame; GetPixels]
              (conj eq_refl eq_refl) ltac:(discriminate))
    as (s' & Hdel & Hsess & _).
  exists s'. split; [exact Hdel | exact Hsess].
Defined.

Lemma construct_and_drop_leaks_nothing_witness :
  str_encode Stub.rom = Some Stub.rom /\
  @be_initialize Stub.inst Stub.backend Stub.rom = Some Stub.first_instance /\
  exists p s2,
    @attempts Stub.inst Stub.backend 2 Stub.rom Stub.boot = Some s2 /\
    heap s2 = ∅ /\
    trace s2 = [CInitialize Stub.rom; CDestroy p;
                CInitialize Stub.rom; CDestroy p].
Proof.
  split; [reflexivity|]. split; [reflexivity|].
  destruct (construct_and_drop_leaks_nothing (be := Stub.backend) 2
              Stub.boot Stub.rom Stub.rom Stub.first_instance eq_refl eq_refl)
    as (p & s2 & _ & _ & Hrun & Hheap & Htrace).
  exists p, s2. split; [exact Hrun|]. split; [exact Hheap | exact Htrace].
Defined.

Lemma programs_keep_session_live_witness :
  live Stub.fresh_session 1 Stub.first_instance /\
  exists s' e',
    @after Stub.inst Stub.backend
      [StartEpisode; SetKeyState A true; RunFrame; GetPixels]
      Stub.fresh_session = Some s' /\
    live s' 1 e' /\
    Forall (fun o => returned o = true)
      (@session Stub.inst Stub.backend
         [StartEpisode; SetKeyState A true; RunFrame; GetPixels]
         Stub.fresh_session).
Proof.
  split; [split; reflexivity|].
  destruct (programs_keep_session_live (be := Stub.backend)
              [StartEpisode; SetKeyState A true; RunFrame; GetPixels]
              Stub.fresh_session 1 Stub.first_instance (conj eq_refl eq_refl))
    as (s' & e' & calls & Hafter & Hlive & _ & _ & Hret & _).
  exists s', e'. split; [exact Hafter|]. split; [exact Hlive | exact Hret].
Defined.

Lemma const_queries_do_not_disturb_witness :
  live Stub.fresh_session 1 Stub.first_instance /\
  shown_without_queries
    [StartEpisode; IsRunning; RunFrame; GetScore; GetPixels]
    (@session Stub.inst Stub.backend
       [StartEpisode; IsRunning; RunFrame; GetScore; GetPixels]
       Stub.fresh_session)
  = @session Stub.inst Stub.backend [StartEpisode; RunFrame; GetPixels]
      Stub.fresh_session.
Proof.
  split; [split; reflexivity|].
  apply (const_queries_do_not_disturb (be := Stub.backend)
           [StartEpisode; IsRunning; RunFrame; GetScore; GetPixels]
           Stub.fresh_session 1 Stub.first_instance (conj eq_refl eq_refl)).
Defined.

Lemma stub_buffer_is_long_enough :
  Environment.WIDTH * Environment.HEIGHT
  <= Z.of_nat (length (@be_get_pixels Stub.inst Stub.backend Stub.first_instance)).
Proof. apply Z.leb_le. vm_compute. reflexivity. Qed.

Lemma pixel_array_dangles_after_del_witness :
  live Stub.fresh_session 1 Stub.first_instance /\
  1%N <> 0%N /\
  Environment.WIDTH * Environment.HEIGHT
  <= Z.of_nat (length (@be_get_pixels Stub.inst Stub.backend Stub.first_instance)) /\
  exists a s1 s2,
    Environment.get_pixels Stub.fresh_session = Ok (VArray a) s1 /\
    @Environment.__del__ Stub.inst s1 = Ok VNone s2 /\
    @tolist Stub.inst Stub.backend a s2 = None.
Proof.
  split; [split; reflexivity|]. split; [discriminate|].
  split; [exact stub_buffer_is_long_enough|].
  destruct (pixel_array_dangles_after_del (be := Stub.backend)
              Stub.fresh_session 1 Stub.first_instance (conj eq_refl eq_refl)
              ltac:(discriminate) stub_buffer_is_long_enough)
    as (a & s1 & s2 & items & Hget & _ & _ & Hdel & Hnone).
  exists a, s1, s2. split; [exact Hget|]. split; [exact Hdel | exact Hnone].
Defined.

Lemma unsigned_pixels_are_recoverable_witness :
  live Stub.fresh_session 1 Stub.first_instance /\
  Environment.WIDTH * Environment.HEIGHT
  <= Z.of_nat (length (@be_get_pixels Stub.inst Stub.backend Stub.first_instance)) /\
  exists a s' items,
    Environment.get_pixels Stub.fresh_session = Ok (VArray a) s' /\
    @tolist Stub.inst Stub.backend a s' = Some items /\
    @tolist Stub.inst Stub.backend
      (mkArray (arr_base a) uint32 (arr_count a) (arr_writeable a)) s'
    = Some (to_uint32 <$> items).
Proof.
  split; [split; reflexivity|]. split; [exact stub_buffer_is_long_enough|].
  destruct (unsigned_pixels_are_recoverable (be := Stub.backend)
              Stub.fresh_session 1 Stub.first_instance (conj eq_refl eq_refl)
              stub_buffer_is_long_enough)
    as (a & s' & items & Hget & Hitems & Hu & _).
  exists a, s', items. split; [exact Hget|]. split; [exact Hitems | exact Hu].
Defined.

Lemma main_counts_frames_witness :
  @be_initialize _ (counting_backend (Some 3)) demo_rom_path
  = Some (counting_start (Some 3)) /\
  exists p s',
    @main _ (counting_backend (Some 3)) 4 (mkState None ∅ [])
    = Ok (Some 3) s' /\
    trace s'
    = [CInitialize demo_rom_path; CStartEpisode p;
       CIsRunning p; CRunFrame p; CIsRunning p; CRunFrame p;
       CIsRunning p; CRunFrame p; CIsRunning p].
Proof.
  split; [reflexivity|].
  destruct (main_counts_frames (be := counting_backend (Some 3)) 3 4
              (mkState None ∅ []) (counting_start (Some 3)) eq_refl)
    as (p & s' & Hmain & Hlive & Htrace).
  - intros i Hi. destruct i as [|[|[|i]]]; try reflexivity. lia.
  - reflexivity.
  - lia.
  - exists p, s'. split; [exact Hmain | exact Htrace].
Defined.

Lemma benchmark_runs_while_backend_runs_witness :
  live (mkState (Some (CData 1)) {[1%N := counting_start None]} []) 1
    (counting_start None) /\
  exists s',
    @benchmark _ (counting_backend None) 5
      (mkState (Some (CData 1)) {[1%N := counting_start None]} [])
    = Ok None s'.
Proof.
  assert (Hlive : live (mkState (Some (CData 1))
                          {[1%N := counting_start None]} []) 1
                    (counting_start None))
    by (split; reflexivity).
  split; [exact Hlive|].
  destruct (benchmark_runs_while_backend_runs (be := counting_backend None) 5
              (mkState (Some (CData 1)) {[1%N := counting_start None]} [])
              1 (counting_start None) Hlive)
    as (s' & Hrun & _).
  - intros i.
    assert (Hall : forall x : SpecBackend.instance (counting_emulator None),
              SpecBackend.running x = true ->
              SpecBackend.running
                (Nat.iter i (@be_run_frame _ (counting_backend None)) x) = true).
    { induction i as [|i IH]; intros x Hx; [exact Hx|].
      rewrite Nat.iter_succ_r. apply IH.
      cbn [be_run_frame counting_backend SpecBackend.backend].
      unfold SpecBackend.run_frame. cbn [SpecBackend.running].
      rewrite Hx. reflexivity. }
    apply Hall. reflexivity.
  - exists s'. exact Hrun.
Defined.

Lemma main_stops_without_rom_witness :
  @be_initialize Stub.inst Stub.backend demo_rom_path = None /\
  exists s1,
    @main Stub.inst Stub.backend 10 Stub.boot = Raise InitializationError s1 /\
    trace s1 = [CInitialize demo_rom_path].
Proof.
  assert (Hnull : @be_initialize Stub.inst Stub.backend demo_rom_path = None)
    by reflexivity.
  split; [exact Hnull|].
  rewrite (main_stops_without_rom (be := Stub.backend) 10 Stub.boot Hnull).
  eexists. split; reflexivity.
Defined.

Lemma get_pixels_is_repeatable_witness :
  live Stub.fresh_session 1 Stub.first_instance /\
  exists a s1 s2,
    Environment.get_pixels Stub.fresh_session = Ok (VArray a) s1 /\
    Environment.get_pixels s1 = Ok (VArray a) s2 /\
    @session Stub.inst Stub.backend [RunFrame; GetScore] s1
    = @session Stub.inst Stub.backend [RunFrame; GetScore] Stub.fresh_session.
Proof.
  split; [split; reflexivity|].
  destruct (get_pixels_is_repeatable (be := Stub.backend) Stub.fresh_session 1
              Stub.first_instance (conj eq_refl eq_refl))
    as (a & s1 & s2 & Hone & Htwo & _ & Hsame).
  exists a, s1, s2. split; [exact Hone|]. split; [exact Htwo | apply Hsame].
Defined.
